(** * Authentication core of the ai-education-platform backend

    Shallow embedding of
    - the [Result<T>] container and the abstract [BaseService] (service
      lifecycle and readiness guard) of the shared common package,
    - [shared/common/src/base/BaseEntity.ts]   (auditable entity, version and audit log),
    - [services/authentication-service/src/services/AuthService.ts]
      (login, register, refreshToken, verifyToken, changePassword).

    Promises are modelled by running every [await] to completion; an exception
    escaping a public method is the [Thrown] outcome.  Third-party primitives
    (bcrypt, jsonwebtoken) are modelled by their observable contract. *)

From Stdlib Require Import String Ascii List Bool ZArith Lia Permutation.
Import ListNotations.
Open Scope string_scope.

(* ------------------------------------------------------------------------- *)
(** ** Result<T> *)

Inductive Result (T : Type) : Type :=
| Success (data : T)
| Failure (error : string).
Arguments Success {T} data.
Arguments Failure {T} error.

(** A call either returns a value or throws an [Error] with a message. *)
Inductive Outcome (A : Type) : Type :=
| Returned (a : A)
| Thrown (message : string).
Arguments Returned {A} a.
Arguments Thrown {A} message.

Module ResultT.

Definition isSuccess {T} (r : Result T) : bool :=
  match r with Success _ => true | Failure _ => false end.

Definition isFailure {T} (r : Result T) : bool := negb (isSuccess r).

(** [get data()]: throws on a failed result. *)
Definition data {T} (r : Result T) : Outcome T :=
  match r with
  | Success d => Returned d
  | Failure _ => Thrown "Cannot access data from a failed result"
  end.

(** [get error()]: throws on a successful result. *)
Definition error {T} (r : Result T) : Outcome string :=
  match r with
  | Success _ => Thrown "Cannot access error from a successful result"
  | Failure e => Returned e
  end.

(** [map(fn)]: [fn] may throw an [Error]; the catch turns it into a failure
    whose message interpolates the error (["Error: " ++ message]). *)
Definition map {T U} (fn : T -> Outcome U) (r : Result T) : Result U :=
  match r with
  | Success d =>
      match fn d with
      | Returned v => Success v
      | Thrown m => Failure ("Mapping failed: Error: " ++ m)
      end
  | Failure e => Failure e
  end.

Definition flatMap {T U} (fn : T -> Result U) (r : Result T) : Result U :=
  match r with Success d => fn d | Failure e => Failure e end.

Definition unwrapOr {T} (dflt : T) (r : Result T) : T :=
  match r with Success d => d | Failure _ => dflt end.

Definition match_ {T U} (onSuccess : T -> U) (onFailure : string -> U) (r : Result T) : U :=
  match r with Success d => onSuccess d | Failure e => onFailure e end.

(** [unwrapOrThrow()]: [throw new Error(this._error)]. *)
Definition unwrapOrThrow {T} (r : Result T) : Outcome T :=
  match r with Success d => Returned d | Failure e => Thrown e end.

End ResultT.

(* ------------------------------------------------------------------------- *)
(** ** BaseService: lifecycle flags and the readiness guard *)

Record BaseService := mkBaseService {
  serviceName : string;
  isInitialized : bool;
  isShuttingDown : bool
}.

(** [constructor(serviceName)]: both flags start false. *)
Definition newBaseService (name : string) : BaseService :=
  mkBaseService name false false.

(** [initialize()]; [doInitialize] of AuthService only registers a health
    check and logs, so it does not throw. *)
Definition initialize (s : BaseService) : BaseService :=
  if isInitialized s then s
  else mkBaseService (serviceName s) true (isShuttingDown s).

(** [shutdown()]; [doShutdown] of AuthService only logs. *)
Definition shutdown (s : BaseService) : BaseService :=
  if isShuttingDown s then s
  else mkBaseService (serviceName s) false true.

Definition isReady (s : BaseService) : bool :=
  isInitialized s && negb (isShuttingDown s).

(** [validateReady()]: [Returned tt] when the guard passes. *)
Definition validateReady (s : BaseService) : Outcome unit :=
  if negb (isReady s) then Thrown ("Service " ++ serviceName s ++ " is not ready")
  else Returned tt.

(** [health()]: the dependency checks in registration order (a [Map] iterates
    in insertion order), then [checkServiceHealth].  A check either resolves
    with a [DependencyHealth] or rejects with an error message; [timestamp],
    [lastChecked], [responseTime] and [metadata] are not modelled. *)
Inductive HealthStatus := HEALTHY | DEGRADED | UNHEALTHY.

Record DependencyHealth := mkDependencyHealth {
  dh_name : string;
  dh_status : HealthStatus;
  dh_error : option string
}.

(** The [if (... === UNHEALTHY) ... else if (... === DEGRADED && overallStatus
    === HEALTHY)] update of [overallStatus]. *)
Definition combineStatus (overall s : HealthStatus) : HealthStatus :=
  match s with
  | UNHEALTHY => UNHEALTHY
  | DEGRADED => match overall with HEALTHY => DEGRADED | o => o end
  | HEALTHY => overall
  end.

Fixpoint checkDependencies (deps : list (string * Outcome DependencyHealth))
    (overall : HealthStatus) : list DependencyHealth * HealthStatus :=
  match deps with
  | [] => ([], overall)
  | (name, Returned dh) :: r =>
      let (l, o) := checkDependencies r (combineStatus overall (dh_status dh)) in (dh :: l, o)
  | (name, Thrown m) :: r =>
      let (l, o) := checkDependencies r UNHEALTHY in
      (mkDependencyHealth name UNHEALTHY (Some m) :: l, o)
  end.

(** Result: overall status and the reported dependencies. *)
Definition health (deps : list (string * Outcome DependencyHealth))
    (serviceSpecific : Outcome HealthStatus) : HealthStatus * list DependencyHealth :=
  let (l, o) := checkDependencies deps HEALTHY in
  match serviceSpecific with
  | Returned s => (combineStatus o s, l)
  | Thrown _ => (UNHEALTHY, l)
  end.

(** Severity order of the statuses. *)
Definition statusRank (s : HealthStatus) : nat :=
  match s with HEALTHY => 0 | DEGRADED => 1 | UNHEALTHY => 2 end.

(** Severity a check contributes: its status, or UNHEALTHY when it rejects. *)
Definition outcomeRank {A} (rank : A -> nat) (o : Outcome A) : nat :=
  match o with Returned a => rank a | Thrown _ => 2 end.

(** [addDependency(name, check)]: [Map.set], which keeps the position of an
    existing key. *)
Fixpoint addDependency {V} (name : string) (check : V) (deps : list (string * V))
    : list (string * V) :=
  match deps with
  | [] => [(name, check)]
  | (n, c) :: r => if String.eqb n name then (n, check) :: r else (n, c) :: addDependency name check r
  end.

(** [removeDependency(name)]: [Map.delete]. *)
Definition removeDependency {V} (name : string) (deps : list (string * V)) : list (string * V) :=
  filter (fun nc => negb (String.eqb (fst nc) name)) deps.

(* ------------------------------------------------------------------------- *)
(** ** String primitives used by the validators (ASCII strings) *)

Module Str.
Local Open Scope nat_scope.

(** [String.prototype.toUpperCase] on ASCII. *)
Definition upper_char (c : ascii) : ascii :=
  let n := nat_of_ascii c in
  if (97 <=? n) && (n <=? 122) then ascii_of_nat (n - 32) else c.

Fixpoint toUpperCase (s : string) : string :=
  match s with
  | EmptyString => EmptyString
  | String c r => String (upper_char c) (toUpperCase r)
  end.

(** The ASCII members of the regex class [\s] (and of [trim]'s whitespace):
    tab, line feed, vertical tab, form feed, carriage return, space. *)
Definition isWs (c : ascii) : bool :=
  let n := nat_of_ascii c in ((9 <=? n) && (n <=? 13)) || (n =? 32).

Definition isUpper (c : ascii) : bool :=
  let n := nat_of_ascii c in (65 <=? n) && (n <=? 90).
Definition isLower (c : ascii) : bool :=
  let n := nat_of_ascii c in (97 <=? n) && (n <=? 122).
Definition isDigit (c : ascii) : bool :=
  let n := nat_of_ascii c in (48 <=? n) && (n <=? 57).

(** [/[X]/.test(s)] for a one-character class [X]. *)
Fixpoint test (p : ascii -> bool) (s : string) : bool :=
  match s with
  | EmptyString => false
  | String c r => p c || test p r
  end.

Fixpoint trimStart (s : string) : string :=
  match s with
  | String c r => if isWs c then trimStart r else s
  | EmptyString => EmptyString
  end.

Fixpoint rev_str (s : string) (acc : string) : string :=
  match s with
  | EmptyString => acc
  | String c r => rev_str r (String c acc)
  end.

(** [String.prototype.trim]: strip leading and trailing whitespace. *)
Definition trim (s : string) : string :=
  rev_str (trimStart (rev_str (trimStart s) EmptyString)) EmptyString.

(** The character class [[^\s@]]. *)
Definition notWsAt (c : ascii) : bool := negb (isWs c || (c =? "@")%char).

Fixpoint all (p : ascii -> bool) (s : string) : bool :=
  match s with
  | EmptyString => true
  | String c r => p c && all p r
  end.

(** Split at the first ["@"]. *)
Fixpoint splitAt (s : string) : option (string * string) :=
  match s with
  | EmptyString => None
  | String c r =>
      if (c =? "@")%char then Some (EmptyString, r)
      else match splitAt r with
           | Some (a, b) => Some (String c a, b)
           | None => None
           end
  end.

(** Some ["."] of [s] is followed by at least one character. *)
Fixpoint dotBeforeLast (s : string) : bool :=
  match s with
  | EmptyString => false
  | String c r => ((c =? ".")%char && negb (String.eqb r EmptyString)) || dotBeforeLast r
  end.

(** [/^[^\s@]+@[^\s@]+\.[^\s@]+$/.test(s)]: the class excludes ["@"], so the
    ["@"] is the first one; the domain is [b ++ "." ++ c] with [b] and [c]
    non-empty, i.e. it has a ["."] neither first nor last. *)
Definition emailRegexTest (s : string) : bool :=
  match splitAt s with
  | None => false
  | Some (local, domain) =>
      negb (String.eqb local EmptyString) && all notWsAt local && all notWsAt domain &&
      match domain with
      | EmptyString => false
      | String _ r => dotBeforeLast r
      end
  end.

End Str.

(* ------------------------------------------------------------------------- *)
(** ** AuditableEntity *)

Module Audit.

Inductive AuditAction := CREATE | UPDATE | DELETE | VIEW | EXPORT.

(** The JavaScript values an entity property or an update may hold.  Numbers
    are integers or NaN.  Objects are known by their reference [ref] (one
    reference, one object): a Date also carries its time and its
    [String(date)] text, an array the audit entries it holds, and any other
    object (a plain object) nothing more.  An audit entry is the object
    [addAuditEntry] builds; its [timestamp] Date is kept as its time. *)
Inductive Value :=
| VUndef
| VNull
| VBool (b : bool)
| VNum (z : Z)
| VNaN
| VStr (s : string)
| VDate (ref : nat) (time : Z) (text : string)
| VArray (ref : nat) (items : list AuditEntry)
| VObject (ref : nat)
with AuditEntry :=
| mkEntry (timestamp : Z) (userId : string) (action : AuditAction)
    (changes : list (string * (Value * Value)))   (* key -> {from, to} *)
    (metadata : option (list (string * Value))).

Definition timestamp (e : AuditEntry) : Z := let (t, _, _, _, _) := e in t.
Definition action (e : AuditEntry) : AuditAction := let (_, _, a, _, _) := e in a.
Definition changes (e : AuditEntry) : list (string * (Value * Value)) :=
  let (_, _, _, c, _) := e in c.
Definition metadata (e : AuditEntry) : option (list (string * Value)) :=
  let (_, _, _, _, m) := e in m.

(** [===]: primitives by value (NaN equal to nothing), objects by reference. *)
Definition strictEq (a b : Value) : bool :=
  match a, b with
  | VUndef, VUndef => true
  | VNull, VNull => true
  | VBool x, VBool y => Bool.eqb x y
  | VNum x, VNum y => Z.eqb x y
  | VStr x, VStr y => String.eqb x y
  | VDate r _ _, VDate r' _ _ => Nat.eqb r r'
  | VArray r _, VArray r' _ => Nat.eqb r r'
  | VObject r, VObject r' => Nat.eqb r r'
  | _, _ => false
  end.

(** [v += 1]: numeric addition, or string concatenation when [v] converts to
    a string (a string, a Date, an array joined by commas, a plain object). *)
Definition plusOne (v : Value) : Value :=
  match v with
  | VUndef => VNaN
  | VNull => VNum 1
  | VBool b => VNum (if b then 2 else 1)
  | VNum z => VNum (z + 1)
  | VNaN => VNaN
  | VStr s => VStr (s ++ "1")
  | VDate _ _ text => VStr (text ++ "1")
  | VArray _ items =>
      VStr (String.concat "," (List.map (fun _ => "[object Object]") items) ++ "1")
  | VObject _ => VStr "[object Object]1"
  end.

(** JavaScript truthiness, for [x || d]. *)
Definition truthy (v : Value) : bool :=
  match v with
  | VUndef | VNull | VNaN => false
  | VBool b => b
  | VNum z => negb (Z.eqb z 0)
  | VStr s => negb (String.eqb s EmptyString)
  | VDate _ _ _ | VArray _ _ | VObject _ => true
  end.

(** An auditable entity whose [auditLog] is an array: [version], the
    reference and the entries of that array, and every other own property
    ([id], [createdAt], [updatedAt], [createdBy], [updatedBy] and those of
    the subclass) by name. *)
Record Entity := mkEntity {
  props : list (string * Value);
  version : Value;
  logRef : nat;
  auditLog : list AuditEntry
}.

Fixpoint lookup (k : string) (l : list (string * Value)) : option Value :=
  match l with
  | [] => None
  | (k', v) :: r => if String.eqb k k' then Some v else lookup k r
  end.

(** [obj[k] = v] on an association list: overwrite in place or append. *)
Fixpoint setKey {V} (k : string) (v : V) (l : list (string * V)) : list (string * V) :=
  match l with
  | [] => [(k, v)]
  | (k', w) :: r => if String.eqb k k' then (k', v) :: r else (k', w) :: setKey k v r
  end.

(** [data?.k] on the constructor argument. *)
Definition getProp (k : string) (data : list (string * Value)) : Value :=
  match lookup k data with Some v => v | None => VUndef end.

Definition orElse (v d : Value) : Value := if truthy v then v else d.

(** [new Sub(data)]: BaseEntity's constructor, then AuditableEntity's, then
    the subclass's own properties [own].  [newId] is the [uuidv4()] result,
    [d1] and [d2] the Dates of the two [new Date()] calls, [freshLog] the
    reference of the [[]] literal.  [None] when [data.auditLog] is a truthy
    value other than an array, which this model does not cover. *)
Definition construct (data : list (string * Value)) (newId : string) (d1 d2 : Value)
    (freshLog : nat) (own : list (string * Value)) : option Entity :=
  let p := ([("id", orElse (getProp "id" data) (VStr newId));
             ("createdAt", orElse (getProp "createdAt" data) d1);
             ("updatedAt", orElse (getProp "updatedAt" data) d2);
             ("createdBy", getProp "createdBy" data);
             ("updatedBy", getProp "updatedBy" data)] ++ own)%list in
  let v := orElse (getProp "version" data) (VNum 1) in
  match getProp "auditLog" data with
  | VArray r items => Some (mkEntity p v r items)
  | l => if truthy l then None else Some (mkEntity p v freshLog [])
  end.

(** [updateMetadata(updatedBy)], with [d] the Date of its [new Date()]. *)
Definition updateMetadata (d : Value) (updatedBy : string) (e : Entity) : Entity :=
  let p := setKey "updatedAt" d (props e) in
  let p := if String.eqb updatedBy EmptyString then p else setKey "updatedBy" (VStr updatedBy) p in
  mkEntity p (version e) (logRef e) (auditLog e).

(** [addAuditEntry(userId, action, changes, metadata)] at clock [now]: push,
    bump, touch. *)
Definition addAuditEntry (now : Z) (d : Value) (userId : string) (act : AuditAction)
    (ch : list (string * (Value * Value))) (md : option (list (string * Value)))
    (e : Entity) : Entity :=
  let entry := mkEntry now userId act ch md in
  updateMetadata d userId
    (mkEntity (props e) (plusOne (version e)) (logRef e) (auditLog e ++ [entry])%list).

(** The object during the change-tracking loop, where [auditLog] may have
    been assigned any value. *)
Record Fields := mkFields {
  f_props : list (string * Value);
  f_version : Value;
  f_log : Value
}.

Definition fieldsOf (e : Entity) : Fields :=
  mkFields (props e) (version e) (VArray (logRef e) (auditLog e)).

(** [this.hasOwnProperty(key) ? this[key] : none]. *)
Definition ownValue (key : string) (f : Fields) : option Value :=
  if String.eqb key "version" then Some (f_version f)
  else if String.eqb key "auditLog" then Some (f_log f)
  else lookup key (f_props f).

(** [this[key] = v] on an own property. *)
Definition setOwn (key : string) (v : Value) (f : Fields) : Fields :=
  if String.eqb key "version" then mkFields (f_props f) v (f_log f)
  else if String.eqb key "auditLog" then mkFields (f_props f) (f_version f) v
  else mkFields (setKey key v (f_props f)) (f_version f) (f_log f).

(** One iteration of the [for (const [key, newValue] of Object.entries(updates))]
    loop. *)
Definition trackOne (f : Fields) (ch : list (string * (Value * Value)))
    (kv : string * Value) : Fields * list (string * (Value * Value)) :=
  let (key, newValue) := kv in
  match ownValue key f with
  | None => (f, ch)
  | Some oldValue =>
      if strictEq oldValue newValue then (f, ch)
      else (setOwn key newValue f, setKey key (oldValue, newValue) ch)
  end.

Fixpoint trackAll (f : Fields) (ch : list (string * (Value * Value)))
    (updates : list (string * Value)) : Fields * list (string * (Value * Value)) :=
  match updates with
  | [] => (f, ch)
  | kv :: r => let (f', ch') := trackOne f ch kv in trackAll f' ch' r
  end.

(** The exception of [this.auditLog.push(entry)] when [auditLog] holds a
    value other than an array. *)
Definition pushError (v : Value) : string :=
  match v with
  | VNull => "TypeError: Cannot read properties of null (reading 'push')"
  | VUndef => "TypeError: Cannot read properties of undefined (reading 'push')"
  | _ => "TypeError: this.auditLog.push is not a function"
  end.

(** [auditUpdate(updates, userId, metadata)] at clock [now], with [d] the
    Date of [updateMetadata]; [updates] lists the entries of [updates] in
    [Object.entries] order.  With no change recorded no property was
    assigned, and the entity is the one given.  When [addAuditEntry] throws,
    the assignments already made stay on the object; the model returns the
    exception. *)
Definition auditUpdate (now : Z) (d : Value) (updates : list (string * Value))
    (userId : string) (md : option (list (string * Value))) (e : Entity) : Outcome Entity :=
  let (f, ch) := trackAll (fieldsOf e) [] updates in
  match ch with
  | [] => Returned e
  | _ =>
      match f_log f with
      | VArray r items =>
          Returned (addAuditEntry now d userId UPDATE ch md
                      (mkEntity (f_props f) (f_version f) r items))
      | v => Thrown (pushError v)
      end
  end.

(** Members of [Object.prototype]: [changes[name]] finds them on any plain
    object, and they are truthy (functions or the prototype itself). *)
Definition objectPrototypeKeys : list string :=
  ["constructor"; "__proto__"; "toString"; "toLocaleString"; "valueOf";
   "hasOwnProperty"; "isPrototypeOf"; "propertyIsEnumerable";
   "__defineGetter__"; "__defineSetter__"; "__lookupGetter__"; "__lookupSetter__"].

(** [entry.changes && entry.changes[fieldName]]: the changes object is
    truthy and its [{from, to}] values are objects, hence truthy. *)
Definition hasChange (fieldName : string) (entry : AuditEntry) : bool :=
  existsb (fun kv => String.eqb (fst kv) fieldName) (changes entry)
  || existsb (String.eqb fieldName) objectPrototypeKeys.

Definition getFieldHistory (fieldName : string) (e : Entity) : list AuditEntry :=
  filter (hasChange fieldName) (auditLog e).




(** A Date of time 100. *)
Definition demo_date : Value := VDate 90 100 "Thu Jan 01 1970 00:00:00 GMT+0000".

(** [new Sub({})] for a subclass whose constructor sets [name] to ["Ana"]:
    id ["e-1"], two Dates of time 0, [createdBy] and [updatedBy] own and
    undefined, version 1, an empty log. *)
Definition demo_entity : Entity :=
  match construct [] "e-1" (VDate 1 0 "Thu Jan 01 1970 00:00:00 GMT+0000")
          (VDate 2 0 "Thu Jan 01 1970 00:00:00 GMT+0000") 3 [("name", VStr "Ana")] with
  | Some e => e
  | None => mkEntity [] VUndef 0 []
  end.

End Audit.

(* ------------------------------------------------------------------------- *)
(** ** User aggregate *)

(** The concrete user classes built by [register]. *)
Inductive UserKind := TeacherUser | StudentUser | AdminUser.

(** Modelled from the spec: the [User] model ([../models/User], with
    [canLogin], [isLocked], [recordFailedLogin], [recordSuccessfulLogin],
    [resetPassword]) is imported by AuthService.ts but is not part of the
    sources; fields and behaviour follow the spec's data model (section 3) and
    account state machine (section 4.2), the audit trail included: a version
    counter and a log of audit entries. *)
Record User := mkUser {
  id : string;
  email : string;
  passwordHash : string;
  kind : UserKind;
  schoolId : option string;
  isActive : bool;
  isVerified : bool;
  failedLoginAttempts : nat;
  lastFailedLoginAt : option Z;
  lastLoginAt : option Z;
  version : nat;
  auditLog : list Audit.AuditEntry
}.

(** Modelled from the spec: the fixed lockout threshold (5). *)
Definition LOCK_THRESHOLD : nat := 5.

(** Modelled from the spec: [isLocked] is a pure function of the failed
    attempt counter and the threshold. *)
Definition isLocked (u : User) : bool := (LOCK_THRESHOLD <=? failedLoginAttempts u)%nat.

(** Modelled from the spec: a user may authenticate only when active,
    verified and unlocked. *)
Definition canLogin (u : User) : bool :=
  isActive u && isVerified u && negb (isLocked u).

Definition with_counter (u : User) (n : nat) (failedAt loginAt : option Z) : User :=
  mkUser (id u) (email u) (passwordHash u) (kind u) (schoolId u)
    (isActive u) (isVerified u) n failedAt loginAt (version u) (auditLog u).

Definition with_hash (u : User) (h : string) : User :=
  mkUser (id u) (email u) h (kind u) (schoolId u)
    (isActive u) (isVerified u) (failedLoginAttempts u)
    (lastFailedLoginAt u) (lastLoginAt u) (version u) (auditLog u).

(** Modelled from the spec: a committed mutation by [actor] at clock [now],
    with field-level diff [ch], appends one UPDATE entry to the log and adds
    1 to the version, in the same step as the change itself. *)
Definition audited (now : Z) (actor : string)
    (ch : list (string * (Audit.Value * Audit.Value))) (u : User) : User :=
  mkUser (id u) (email u) (passwordHash u) (kind u) (schoolId u)
    (isActive u) (isVerified u) (failedLoginAttempts u)
    (lastFailedLoginAt u) (lastLoginAt u) (S (version u))
    (auditLog u ++ [Audit.mkEntry now actor Audit.UPDATE ch None])%list.

Definition counterDiff (u : User) (n : nat) : list (string * (Audit.Value * Audit.Value)) :=
  [("failedLoginAttempts",
    (Audit.VNum (Z.of_nat (failedLoginAttempts u)), Audit.VNum (Z.of_nat n)))].

(** Modelled from the spec: a mismatch increments the consecutive-failure
    counter and records the time of the failure, as an audited mutation. *)
Definition recordFailedLogin (now : Z) (u : User) : User :=
  audited now (id u) (counterDiff u (S (failedLoginAttempts u)))
    (with_counter u (S (failedLoginAttempts u)) (Some now) (lastLoginAt u)).

(** Modelled from the spec: a successful authentication resets the counter to
    0 and records the login time, as an audited mutation. *)
Definition recordSuccessfulLogin (now : Z) (u : User) : User :=
  audited now (id u) (counterDiff u 0)
    (with_counter u 0 (lastFailedLoginAt u) (Some now)).

(** Modelled from the spec: the explicit unlock action by [actor] (an
    administrator or a cooldown, left open by the spec) resets the counter to
    0, as an audited mutation. *)
Definition unlock (now : Z) (actor : string) (u : User) : User :=
  audited now actor (counterDiff u 0)
    (with_counter u 0 (lastFailedLoginAt u) (lastLoginAt u)).

(** Modelled from the spec: [resetPassword(newHash, userId)] replaces the
    stored hash, as an audited mutation by [userId] ([now] is its clock). *)
Definition resetPassword (now : Z) (newHash actor : string) (u : User) : User :=
  audited now actor
    [("passwordHash", (Audit.VStr (passwordHash u), Audit.VStr newHash))]
    (with_hash u newHash).

Definition roleOf (u : User) : string :=
  match kind u with
  | TeacherUser => "TEACHER"
  | StudentUser => "STUDENT"
  | AdminUser => "ADMIN"
  end.

(* ------------------------------------------------------------------------- *)
(** ** User store *)

(** Modelled from the spec: the [IUserRepository] contract (section 6) is
    imported but not part of the sources.  The store holds the user records in
    insertion order; [readOk] and [writeOk] say whether reads and writes of the
    backing database currently succeed (an unavailable store answers with a
    failed [Result]).  Records are values: the service mutates its own copy
    and writes it back with [update]. *)
Record Store := mkStore {
  users : list User;
  readOk : bool;
  writeOk : bool
}.

Definition with_users (st : Store) (l : list User) : Store :=
  mkStore l (readOk st) (writeOk st).

Definition findByEmail (st : Store) (e : string) : Result (option User) :=
  if readOk st then Success (find (fun u => String.eqb (email u) e) (users st))
  else Failure "Database unavailable".

Definition findById (st : Store) (i : string) : Result (option User) :=
  if readOk st then Success (find (fun u => String.eqb (id u) i) (users st))
  else Failure "Database unavailable".

Fixpoint replaceById (i : string) (u : User) (l : list User) : list User :=
  match l with
  | [] => []
  | v :: r => if String.eqb (id v) i then u :: r else v :: replaceById i u r
  end.

Definition update (st : Store) (i : string) (u : User) : Result User * Store :=
  if negb (writeOk st) then (Failure "Database unavailable", st)
  else if existsb (fun v => String.eqb (id v) i) (users st)
  then (Success u, with_users st (replaceById i u (users st)))
  else (Failure "User not found", st).

(** [create] enforces email uniqueness, the authoritative guard of the spec. *)
Definition create (st : Store) (u : User) : Result User * Store :=
  if negb (writeOk st) then (Failure "Database unavailable", st)
  else if existsb (fun v => String.eqb (email v) (email u)) (users st)
  then (Failure "duplicate key value violates unique constraint", st)
  else (Success u, with_users st (users st ++ [u])%list).

(* ------------------------------------------------------------------------- *)
(** ** jsonwebtoken *)

Record TokenPayload := mkPayload {
  userId : string;
  p_email : string;
  p_role : string;
  p_schoolId : option string;
  iat : Z;
  exp : Z
}.

(** A token is either one produced by [jwt.sign] (payload and signing key) or
    any other string. *)
Inductive Token :=
| Signed (p : TokenPayload) (key : string)
| Garbage (s : string).

(** Errors thrown by [jwt.verify]; [TokenExpiredError] is a subclass of
    [JsonWebTokenError]. *)
Inductive JwtError :=
| JsonWebTokenError (message : string)
| TokenExpiredError.

Definition isJsonWebTokenError (e : JwtError) : bool := true.

Inductive Verified :=
| VerifyOk (p : TokenPayload)
| VerifyErr (e : JwtError).

(** [jwt.sign(payload, secret, { expiresIn })] at clock [now] (seconds);
    an empty secret makes [sign] throw ([None]). *)
Definition jwt_sign (userId0 email0 role0 : string) (school : option string)
    (secret : string) (now expiresIn : Z) : option Token :=
  if String.eqb secret EmptyString then None
  else Some (Signed (mkPayload userId0 email0 role0 school now (now + expiresIn)) secret).

(** [jwt.verify(token, secret)] at clock [now]: a token expires once
    [now >= exp]. *)
Definition jwt_verify (t : Token) (secret : string) (now : Z) : Verified :=
  if String.eqb secret EmptyString
  then VerifyErr (JsonWebTokenError "secret or public key must be provided")
  else match t with
       | Garbage _ => VerifyErr (JsonWebTokenError "jwt malformed")
       | Signed p k =>
           if negb (String.eqb k secret) then VerifyErr (JsonWebTokenError "invalid signature")
           else if (exp p <=? now)%Z then VerifyErr TokenExpiredError
           else VerifyOk p
       end.

(* ------------------------------------------------------------------------- *)
(** ** AuthService *)

Record AuthService := mkAuthService {
  base : BaseService;
  jwtSecret : string;
  jwtRefreshSecret : string
}.

(** [new AuthService(repo, jwtSecret, jwtRefreshSecret)]: [super('AuthService')]. *)
Definition newAuthService (secret refreshSecret : string) : AuthService :=
  mkAuthService (newBaseService "AuthService") secret refreshSecret.

Definition authInitialize (svc : AuthService) : AuthService :=
  mkAuthService (initialize (base svc)) (jwtSecret svc) (jwtRefreshSecret svc).

Definition authShutdown (svc : AuthService) : AuthService :=
  mkAuthService (shutdown (base svc)) (jwtSecret svc) (jwtRefreshSecret svc).

Definition accessTokenExpiry : Z := 15 * 60.        (* '15m' *)
Definition refreshTokenExpiry : Z := 7 * 24 * 3600.  (* '7d' *)

Record LoginRequest := mkLoginRequest { l_email : string; l_password : string }.

Record LoginResponse := mkLoginResponse {
  user : User;
  accessToken : Token;
  refreshToken : Token;
  expiresIn : Z
}.

(** Modelled from the spec: an entry of [additionalData] as the modelled
    user constructors see it.  The constructor argument's [email],
    [passwordHash] and [schoolId] become the user's fields; in the object
    literal [...request.additionalData] comes last, so an entry of one of
    these keys overrides the request's value.  Entries of other keys (name
    fields, phone, class-specific data) touch no field of this model. *)
Inductive AdditionalEntry :=
| AEmail (s : string)
| APasswordHash (s : string)
| ASchoolId (s : option string)
| AOther (key : string).

(** Fields of a [RegisterRequest]; an absent [additionalData] is the empty
    list. *)
Record RegisterRequest := mkRegisterRequest {
  r_email : string;
  r_password : string;
  r_firstName : string;
  r_lastName : string;
  r_phone : option string;
  r_role : string;
  r_schoolId : option string;
  r_additionalData : list AdditionalEntry
}.

Definition AUTH_FAILED := "Authentication failed".
Definition ACCOUNT_LOCKED := "Account is locked due to multiple failed attempts".
Definition USER_EXISTS := "User with this email already exists".
Definition CREATE_FAILED := "Failed to create user account".

Definition generateAccessToken (svc : AuthService) (now : Z) (u : User) : option Token :=
  jwt_sign (id u) (email u) (roleOf u) (schoolId u) (jwtSecret svc) now accessTokenExpiry.

Definition generateRefreshToken (svc : AuthService) (now : Z) (u : User) : option Token :=
  jwt_sign (id u) (email u) (roleOf u) None (jwtRefreshSecret svc) now refreshTokenExpiry.

(** [validatePassword]: the first failing check gives the message. *)
Definition validatePassword (password : string) : Result bool :=
  if (String.length password <? 8)%nat
  then Failure "Password must be at least 8 characters long"
  else if negb (Str.test Str.isUpper password)
  then Failure "Password must contain at least one uppercase letter"
  else if negb (Str.test Str.isLower password)
  then Failure "Password must contain at least one lowercase letter"
  else if negb (Str.test Str.isDigit password)
  then Failure "Password must contain at least one number"
  else Success true.

Definition isValidEmail (e : string) : bool := Str.emailRegexTest e.

Definition validRoles : list string := ["TEACHER"; "STUDENT"; "ADMIN"; "SCHOOL_ADMIN"].

Definition validateRegistrationRequest (request : RegisterRequest) : Result bool :=
  let errors := (
    (if String.eqb (r_email request) EmptyString || negb (isValidEmail (r_email request))
     then ["Valid email is required"] else []) ++
    (if String.eqb (r_password request) EmptyString then ["Password is required"]
     else match validatePassword (r_password request) with
          | Failure e => [e]
          | Success _ => []
          end) ++
    (if String.eqb (r_firstName request) EmptyString
        || (String.length (Str.trim (r_firstName request)) <? 2)%nat
     then ["First name must be at least 2 characters"] else []) ++
    (if String.eqb (r_lastName request) EmptyString
        || (String.length (Str.trim (r_lastName request)) <? 2)%nat
     then ["Last name must be at least 2 characters"] else []) ++
    (if String.eqb (r_role request) EmptyString
        || negb (existsb (String.eqb (Str.toUpperCase (r_role request))) validRoles)
     then ["Valid role is required"] else []))%list in
  match errors with
  | [] => Success true
  | _ => Failure (String.concat ", " errors)
  end.

(** The [switch (request.role.toUpperCase())] of [register]. *)
Definition kindOfRole (role : string) : option UserKind :=
  let r := Str.toUpperCase role in
  if String.eqb r "TEACHER" then Some TeacherUser
  else if String.eqb r "STUDENT" then Some StudentUser
  else if String.eqb r "ADMIN" || String.eqb r "SCHOOL_ADMIN" then Some AdminUser
  else None.

(** Modelled from the spec: one entry of the spread, applied in order. *)
Definition applyEntry (u : User) (a : AdditionalEntry) : User :=
  match a with
  | AEmail s =>
      mkUser (id u) s (passwordHash u) (kind u) (schoolId u) (isActive u) (isVerified u)
        (failedLoginAttempts u) (lastFailedLoginAt u) (lastLoginAt u) (version u) (auditLog u)
  | APasswordHash h => with_hash u h
  | ASchoolId sc =>
      mkUser (id u) (email u) (passwordHash u) (kind u) sc (isActive u) (isVerified u)
        (failedLoginAttempts u) (lastFailedLoginAt u) (lastLoginAt u) (version u) (auditLog u)
  | AOther _ => u
  end.

(** Modelled from the spec: the user-class constructors, given
    [{email, passwordHash, ..., schoolId, ...request.additionalData}].  A new
    account starts with a zero counter, active and verified (the spec has
    [register] followed by [login] succeed), at version 1 with an empty log. *)
Definition newUser (newId : string) (k : UserKind) (request : RegisterRequest)
    (hash : string) : User :=
  fold_left applyEntry (r_additionalData request)
    (mkUser newId (r_email request) hash k (r_schoolId request) true true 0 None None 1 []).


(** The loginability check of [login]: [None] when it passes. *)
Definition loginGuard (u : User) : option string :=
  if negb (canLogin u) then
    if isLocked u then Some ACCOUNT_LOCKED
    else if negb (isActive u) then Some "Account is inactive"
    else if negb (isVerified u) then Some "Account is not verified"
    else None
  else None.

Section Operations.

(** bcrypt: [hash(password, saltRounds)] and [compare(password, hash)]. *)
Context (bcrypt_hash : string -> string).
Context (bcrypt_compare : string -> string -> bool).

Definition login (svc : AuthService) (st : Store) (now : Z) (request : LoginRequest)
    : Outcome (Result LoginResponse) * Store :=
  match validateReady (base svc) with
  | Thrown m => (Thrown m, st)
  | Returned _ =>
    match findByEmail st (l_email request) with
    | Failure _ => (Returned (Failure AUTH_FAILED), st)
    | Success None => (Returned (Failure AUTH_FAILED), st)
    | Success (Some u) =>
      match loginGuard u with
      | Some m => (Returned (Failure m), st)
      | None =>
        if negb (bcrypt_compare (l_password request) (passwordHash u)) then
          let u' := recordFailedLogin now u in
          let st' := snd (update st (id u) u') in
          (Returned (Failure AUTH_FAILED), st')
        else
          let u' := recordSuccessfulLogin now u in
          let st' := snd (update st (id u) u') in
          match generateAccessToken svc now u', generateRefreshToken svc now u' with
          | Some at_, Some rt => (Returned (Success (mkLoginResponse u' at_ rt (15 * 60))), st')
          | _, _ => (Returned (Failure AUTH_FAILED), st')  (* catch *)
          end
      end
    end
  end.

Definition register (svc : AuthService) (st : Store) (newId : string)
    (request : RegisterRequest) : Outcome (Result User) * Store :=
  match validateReady (base svc) with
  | Thrown m => (Thrown m, st)
  | Returned _ =>
    match validateRegistrationRequest request with
    | Failure e => (Returned (Failure e), st)
    | Success _ =>
      match findByEmail st (r_email request) with
      | Success (Some _) => (Returned (Failure USER_EXISTS), st)
      | _ =>
        let hash := bcrypt_hash (r_password request) in
        match kindOfRole (r_role request) with
        | None => (Returned (Failure "Invalid user role"), st)
        | Some k =>
          match create st (newUser newId k request hash) with
          | (Failure _, st') => (Returned (Failure CREATE_FAILED), st')
          | (Success u, st') => (Returned (Success u), st')
          end
        end
      end
    end
  end.

Definition refreshTokenOp (svc : AuthService) (st : Store) (now : Z) (t : Token)
    : Outcome (Result LoginResponse) :=
  match validateReady (base svc) with
  | Thrown m => Thrown m
  | Returned _ =>
    match jwt_verify t (jwtRefreshSecret svc) now with
    | VerifyErr e =>
        if isJsonWebTokenError e then Returned (Failure "Invalid refresh token")
        else Returned (Failure "Failed to refresh token")
    | VerifyOk p =>
      match findById st (userId p) with
      | Failure _ | Success None => Returned (Failure "Invalid refresh token")
      | Success (Some u) =>
        if negb (canLogin u) then Returned (Failure "User account is not active")
        else match generateAccessToken svc now u, generateRefreshToken svc now u with
             | Some at_, Some rt => Returned (Success (mkLoginResponse u at_ rt (15 * 60)))
             | _, _ => Returned (Failure "Failed to refresh token")  (* catch *)
             end
      end
    end
  end.

Definition verifyToken (svc : AuthService) (st : Store) (now : Z) (t : Token)
    : Outcome (Result User) :=
  match validateReady (base svc) with
  | Thrown m => Thrown m
  | Returned _ =>
    match jwt_verify t (jwtSecret svc) now with
    | VerifyErr e =>
        if isJsonWebTokenError e then Returned (Failure "Invalid token")
        else Returned (Failure "Token verification failed")
    | VerifyOk p =>
      match findById st (userId p) with
      | Failure _ | Success None => Returned (Failure "Invalid token")
      | Success (Some u) =>
        if negb (isActive u) then Returned (Failure "User account is not active")
        else Returned (Success u)
      end
    end
  end.

Definition changePassword (svc : AuthService) (st : Store) (now : Z)
    (uid currentPassword newPassword : string)
    : Outcome (Result bool) * Store :=
  match validateReady (base svc) with
  | Thrown m => (Thrown m, st)
  | Returned _ =>
    match findById st uid with
    | Failure _ | Success None => (Returned (Failure "User not found"), st)
    | Success (Some u) =>
      if negb (bcrypt_compare currentPassword (passwordHash u))
      then (Returned (Failure "Current password is incorrect"), st)
      else match validatePassword newPassword with
           | Failure e => (Returned (Failure e), st)
           | Success _ =>
             let u' := resetPassword now (bcrypt_hash newPassword) uid u in
             (Returned (Success true), snd (update st uid u'))
           end
    end
  end.

(** Consecutive login calls [(clock, request)], each on the store left by the
    previous one. *)
Fixpoint loginSeq (svc : AuthService) (st : Store) (reqs : list (Z * LoginRequest))
    : list (Outcome (Result LoginResponse)) * Store :=
  match reqs with
  | [] => ([], st)
  | (t, r) :: rest =>
      let (o, st1) := login svc st t r in
      let (os, st2) := loginSeq svc st1 rest in
      (o :: os, st2)
  end.

End Operations.

(* ------------------------------------------------------------------------- *)
(** ** ValidationUtils.validatePassword (shared common package) *)

Module ValidationUtils.

Record ValidationError := mkValidationError { ve_field : string; ve_message : string }.
Record ValidationResult := mkValidationResult { isValid : bool; errors : list ValidationError }.

(** The special-character class of the regex, by character code: the 30
    ASCII punctuation characters it lists, the double quote and backslash
    included. *)
Definition specialCodes : list nat :=
  [33; 64; 35; 36; 37; 94; 38; 42; 40; 41; 95; 43; 45; 61; 91; 93; 123; 125;
   59; 39; 58; 34; 92; 124; 44; 46; 60; 62; 47; 63]%nat.

Definition isSpecial (c : ascii) : bool := existsb (Nat.eqb (nat_of_ascii c)) specialCodes.

Definition pwError (m : string) : ValidationError := mkValidationError "password" m.

(** Every check runs; each failing one pushes its error. *)
Definition validatePassword (password : string) : ValidationResult :=
  let errors := (
    (if (String.length password <? 8)%nat
     then [pwError "Password must be at least 8 characters long"] else []) ++
    (if negb (Str.test Str.isUpper password)
     then [pwError "Password must contain at least one uppercase letter"] else []) ++
    (if negb (Str.test Str.isLower password)
     then [pwError "Password must contain at least one lowercase letter"] else []) ++
    (if negb (Str.test Str.isDigit password)
     then [pwError "Password must contain at least one number"] else []) ++
    (if negb (Str.test isSpecial password)
     then [pwError "Password must contain at least one special character"] else []))%list in
  mkValidationResult (Nat.eqb (List.length errors) 0) errors.

End ValidationUtils.

(** The same request with another [role]. *)
Definition set_role (request : RegisterRequest) (role : string) : RegisterRequest :=
  mkRegisterRequest (r_email request) (r_password request) (r_firstName request)
    (r_lastName request) (r_phone request) role (r_schoolId request)
    (r_additionalData request).

(** The roles the spec lists as recognised. *)
Definition specRoles : list string := ["TEACHER"; "STUDENT"; "ADMIN"; "PARENT"; "SUPPORT"].

(** Modelled from the spec: the explicit unlock action by [actor] at clock
    [now] applied to a stored account and written back through the store. *)
Definition unlockAccount (st : Store) (now : Z) (actor : string) (u : User) : Store :=
  snd (update st (id u) (unlock now actor u)).

(** Concrete stand-ins for bcrypt used to run the operations on examples. *)
Definition demo_hash (p : string) : string := "$2b$12$" ++ p.
Definition demo_compare (p h : string) : bool := String.eqb (demo_hash p) h.

Definition demo_svc : AuthService :=
  authInitialize (newAuthService "access-secret" "refresh-secret").

Definition demo_request (password role : string) : RegisterRequest :=
  mkRegisterRequest "ana@school.in" password "Ana" "Rao" None role None [].

(** A stored account of ["ana@school.in"] whose password is ["Abcdef12"]. *)
Definition demo_user (active verified : bool) (failures : nat) : User :=
  mkUser "u-0" "ana@school.in" (demo_hash "Abcdef12") TeacherUser None
    active verified failures None None 1 [].

Definition demo_store : Store := mkStore [demo_user true true 0] true true.

(** Five wrong passwords, one per second. *)
Definition demo_attempts : list (Z * string) :=
  [(1%Z, "Wrong001"); (2%Z, "Wrong002"); (3%Z, "Wrong003"); (4%Z, "Wrong004"); (5%Z, "Wrong005")].


(* ------------------------------------------------------------------------- *)
(** ** Service lifecycle traces *)

Inductive LifecycleCall := Init | Shutdown.

Fixpoint runLifecycle (calls : list LifecycleCall) (svc : AuthService) : AuthService :=
  match calls with
  | [] => svc
  | Init :: r => runLifecycle r (authInitialize svc)
  | Shutdown :: r => runLifecycle r (authShutdown svc)
  end.

Definition LifecycleCall_eqb (a b : LifecycleCall) : bool :=
  match a, b with Init, Init | Shutdown, Shutdown => true | _, _ => false end.

(** The ['UserRepository'] check registered by [doInitialize]: it resolves
    HEALTHY whenever [userRepository.count()] resolves (whatever [Result] it
    carries) and UNHEALTHY with the message when it rejects. *)
Definition userRepositoryCheck (count : Outcome (Result nat)) : Outcome DependencyHealth :=
  match count with
  | Returned _ => Returned (mkDependencyHealth "UserRepository" HEALTHY None)
  | Thrown m => Returned (mkDependencyHealth "UserRepository" UNHEALTHY (Some m))
  end.

(** [checkServiceHealth()]: [!this.jwtSecret || !this.jwtRefreshSecret]. *)
Definition checkServiceHealth (svc : AuthService) : HealthStatus :=
  if String.eqb (jwtSecret svc) EmptyString || String.eqb (jwtRefreshSecret svc) EmptyString
  then UNHEALTHY else HEALTHY.

(** The dependency map after a lifecycle trace: [doInitialize] runs on each
    [initialize] that finds the service uninitialised and (re)sets the
    ['UserRepository'] entry; [shutdown] does not remove it. *)
Fixpoint authDependencies (calls : list LifecycleCall) (svc : AuthService)
    (count : Outcome (Result nat)) (deps : list (string * Outcome DependencyHealth))
    : list (string * Outcome DependencyHealth) :=
  match calls with
  | [] => deps
  | Init :: r =>
      let deps' := if isInitialized (base svc) then deps
                   else addDependency "UserRepository" (userRepositoryCheck count) deps in
      authDependencies r (authInitialize svc) count deps'
  | Shutdown :: r => authDependencies r (authShutdown svc) count deps
  end.

(** [health()] of an AuthService built with the given secrets, after a
    lifecycle trace, when [count()] behaves as [count]. *)
Definition authHealth (calls : list LifecycleCall) (secret refreshSecret : string)
    (count : Outcome (Result nat)) : HealthStatus * list DependencyHealth :=
  let svc := newAuthService secret refreshSecret in
  health (authDependencies calls svc count [])
    (Returned (checkServiceHealth (runLifecycle calls svc))).

(** The account of [e] in [st]: same id, hash and eligibility flags as [u]. *)
Definition AccountInv (st : Store) (e : string) (u v : User) : Prop :=
  readOk st = true /\ writeOk st = true /\ NoDup (map id (users st)) /\
  findByEmail st e = Success (Some v) /\ id v = id u /\ email v = e /\
  passwordHash v = passwordHash u /\ isActive v = true /\ isVerified v = true.

(** What identifies an account and governs access to it: everything but the
    login counters and timestamps. *)
Definition accountIdentity (u : User) :=
  (id u, email u, passwordHash u, kind u, schoolId u, isActive u, isVerified u).

(** A stored record [v] is a later state of [u]: its audit log extends
    [u]'s, and its version exceeds [u]'s by the number of entries added. *)
Definition grows (u v : User) : Prop :=
  exists l, auditLog v = (auditLog u ++ l)%list /\ version v = (version u + length l)%nat.

Definition returned {A} (o : Outcome A) : bool :=
  match o with Returned _ => true | Thrown _ => false end.

(* ========================================================================= *)
(** * Properties *)

(** Claim C9: reading [data] of a failure and [error] of a success throw;
    [data] of a success is the payload and [error] of a failure the message. *)
Theorem result_accessors_fail_fast :
  forall (T : Type) (d : T) (e : string),
    ResultT.data (Success d) = Returned d /\
    ResultT.error (@Success T d) = Thrown "Cannot access error from a successful result" /\
    ResultT.data (@Failure T e) = Thrown "Cannot access data from a failed result" /\
    ResultT.error (@Failure T e) = Returned e.
Proof. intros; repeat split. Qed.

Lemma runLifecycle_name : forall calls svc,
  serviceName (base (runLifecycle calls svc)) = serviceName (base svc).
Proof.
  induction calls as [|[] r IH]; intros svc; simpl; auto;
    rewrite IH; unfold authInitialize, authShutdown, initialize, shutdown;
    simpl; destruct (isInitialized (base svc)), (isShuttingDown (base svc)); reflexivity.
Qed.

Lemma runLifecycle_ready : forall calls svc,
  isReady (base (runLifecycle calls svc)) =
  (isInitialized (base svc) || existsb (LifecycleCall_eqb Init) calls) &&
  negb (isShuttingDown (base svc) || existsb (LifecycleCall_eqb Shutdown) calls).
Proof.
  induction calls as [|[] r IH]; intros svc; simpl.
  - unfold isReady. rewrite !orb_false_r. reflexivity.
  - rewrite IH. unfold authInitialize, initialize; simpl.
    destruct (isInitialized (base svc)) eqn:Hi; simpl; rewrite ?Hi; reflexivity.
  - rewrite IH. unfold authShutdown, shutdown; simpl.
    destruct (isShuttingDown (base svc)) eqn:Hs; simpl; rewrite ?Hs;
      rewrite ?orb_true_r; simpl; rewrite ?andb_false_r; reflexivity.
Qed.

Lemma existsb_call_In : forall c calls,
  existsb (LifecycleCall_eqb c) calls = true <-> In c calls.
Proof.
  intros c calls. rewrite existsb_exists. split.
  - intros [x [Hx He]]. destruct c, x; simpl in He; try discriminate; exact Hx.
  - intros H. exists c. split; [exact H | destruct c; reflexivity].
Qed.

Ltac crush_matches :=
  repeat (simpl; match goal with
  | |- context [match ?x with _ => _ end] => destruct x
  | |- context [if ?x then _ else _] => destruct x
  end); reflexivity.

Lemma guarded_ops_return :
  forall hash cmp svc st now lreq newId rreq t uid cur np,
  isReady (base svc) = true ->
  returned (fst (login cmp svc st now lreq)) = true /\
  returned (fst (register hash svc st newId rreq)) = true /\
  returned (refreshTokenOp svc st now t) = true /\
  returned (verifyToken svc st now t) = true /\
  returned (fst (changePassword hash cmp svc st now uid cur np)) = true.
Proof.
  intros hash cmp svc st now lreq newId rreq t uid cur np Hr.
  unfold login, register, refreshTokenOp, verifyToken, changePassword, validateReady.
  rewrite Hr. simpl.
  repeat split; crush_matches.
Qed.

Lemma guarded_ops_throw :
  forall hash cmp svc st now lreq newId rreq t uid cur np,
  isReady (base svc) = false ->
  let m := ("Service " ++ serviceName (base svc) ++ " is not ready")%string in
  fst (login cmp svc st now lreq) = Thrown m /\
  fst (register hash svc st newId rreq) = Thrown m /\
  refreshTokenOp svc st now t = Thrown m /\
  verifyToken svc st now t = Thrown m /\
  fst (changePassword hash cmp svc st now uid cur np) = Thrown m.
Proof.
  intros hash cmp svc st now lreq newId rreq t uid cur np Hr m.
  unfold login, register, refreshTokenOp, verifyToken, changePassword, validateReady.
  rewrite Hr. repeat split.
Qed.

(** Claim C10: for an AuthService driven by any sequence of [initialize] and
    [shutdown] calls, the service is ready exactly when [initialize] has run
    and [shutdown] has not; every public operation (login, register,
    refreshToken, verifyToken, changePassword) throws
    ["Service AuthService is not ready"] when it is not ready, and none of
    them throws when it is ready. *)
Theorem authservice_readiness_guard :
  forall (calls : list LifecycleCall) (secret refreshSecret : string)
         hash cmp st now lreq newId rreq t uid cur np,
  let svc := runLifecycle calls (newAuthService secret refreshSecret) in
  (isReady (base svc) = true <-> In Init calls /\ ~ In Shutdown calls) /\
  (isReady (base svc) = false ->
     fst (login cmp svc st now lreq) = Thrown "Service AuthService is not ready" /\
     fst (register hash svc st newId rreq) = Thrown "Service AuthService is not ready" /\
     refreshTokenOp svc st now t = Thrown "Service AuthService is not ready" /\
     verifyToken svc st now t = Thrown "Service AuthService is not ready" /\
     fst (changePassword hash cmp svc st now uid cur np) = Thrown "Service AuthService is not ready") /\
  (isReady (base svc) = true ->
     returned (fst (login cmp svc st now lreq)) = true /\
     returned (fst (register hash svc st newId rreq)) = true /\
     returned (refreshTokenOp svc st now t) = true /\
     returned (verifyToken svc st now t) = true /\
     returned (fst (changePassword hash cmp svc st now uid cur np)) = true).
Proof.
  intros calls secret refreshSecret hash cmp st now lreq newId rreq t uid cur np svc.
  split; [|split].
  - unfold svc. rewrite runLifecycle_ready. simpl.
    rewrite <- !existsb_call_In.
    destruct (existsb (LifecycleCall_eqb Init) calls),
             (existsb (LifecycleCall_eqb Shutdown) calls); simpl; intuition congruence.
  - intros Hr.
    pose proof (guarded_ops_throw hash cmp svc st now lreq newId rreq t uid cur np Hr) as H.
    unfold svc in H at 1 2 3 4 5 6 |- *. simpl in H.
    rewrite runLifecycle_name in H. exact H.
  - intros Hr. apply guarded_ops_return. exact Hr.
Qed.

Lemma validatePassword_spec : forall p,
  validatePassword p = Success true <->
  (8 <= String.length p)%nat /\ Str.test Str.isUpper p = true /\
  Str.test Str.isLower p = true /\ Str.test Str.isDigit p = true.
Proof.
  intros p. unfold validatePassword.
  destruct (String.length p <? 8)%nat eqn:Hl;
    [apply Nat.ltb_lt in Hl | apply Nat.ltb_ge in Hl].
  - split; [discriminate | intros [H _]; lia].
  - destruct (Str.test Str.isUpper p), (Str.test Str.isLower p), (Str.test Str.isDigit p);
      simpl; split; intuition discriminate.
Qed.

Lemma validateRegistration_rejects_weak_password : forall request e,
  r_password request <> EmptyString ->
  validatePassword (r_password request) = Failure e ->
  exists m, validateRegistrationRequest request = Failure m.
Proof.
  intros request e Hne Hp. unfold validateRegistrationRequest.
  destruct (String.eqb (r_password request) EmptyString) eqn:He.
  - apply String.eqb_eq in He. contradiction.
  - rewrite Hp.
    destruct (String.eqb (r_email request) EmptyString || negb (isValidEmail (r_email request)));
      simpl; eexists; reflexivity.
Qed.

Lemma register_returns_validation_failure :
  forall hash svc st newId request m,
  isReady (base svc) = true ->
  validateRegistrationRequest request = Failure m ->
  register hash svc st newId request = (Returned (Failure m), st).
Proof.
  intros hash svc st newId request m Hr Hv.
  unfold register, validateReady. rewrite Hr. simpl. rewrite Hv. reflexivity.
Qed.

(** Claim C7: the password policy of register and changePassword accepts a
    password exactly when it has at least 8 characters, an uppercase letter, a
    lowercase letter and a digit; register with ["abc"] fails validation with
    the validation message, and ["Abcdef12"] passes the policy, so that a
    registration otherwise valid succeeds with it (no special character
    required). *)
Theorem password_policy_register :
  (forall p, validatePassword p = Success true <->
     (8 <= String.length p)%nat /\ Str.test Str.isUpper p = true /\
     Str.test Str.isLower p = true /\ Str.test Str.isDigit p = true) /\
  (forall hash svc st newId request,
     isReady (base svc) = true -> r_password request = "abc" ->
     exists m, validateRegistrationRequest request = Failure m /\
               register hash svc st newId request = (Returned (Failure m), st)) /\
  validatePassword "Abcdef12" = Success true /\
  (exists u, fst (register demo_hash demo_svc (mkStore [] true true) "u-1"
                (demo_request "Abcdef12" "TEACHER")) = Returned (Success u)).
Proof.
  split; [exact validatePassword_spec|].
  split; [|split; [reflexivity | eexists; reflexivity]].
  intros hash svc st newId request Hr Hp.
  destruct (validateRegistration_rejects_weak_password request
              "Password must be at least 8 characters long") as [m Hm].
  - rewrite Hp. discriminate.
  - rewrite Hp. reflexivity.
  - exists m. split; [exact Hm|]. apply register_returns_validation_failure; assumption.
Qed.

(** Claim C4 (counterexample): PARENT and SUPPORT, recognised roles of the
    spec, are rejected by register's validation on an otherwise valid
    request. *)
Lemma register_rejects_parent_and_support :
  In "PARENT" specRoles /\ In "SUPPORT" specRoles /\
  fst (register demo_hash demo_svc (mkStore [] true true) "u-1"
         (demo_request "Abcdef12" "PARENT")) = Returned (Failure "Valid role is required") /\
  fst (register demo_hash demo_svc (mkStore [] true true) "u-1"
         (demo_request "Abcdef12" "SUPPORT")) = Returned (Failure "Valid role is required").
Proof. simpl. repeat split; auto 10. Qed.

Lemma existsb_eqb_In : forall x l, existsb (String.eqb x) l = true <-> In x l.
Proof.
  intros x l. rewrite existsb_exists. split.
  - intros [y [Hy He]]. apply String.eqb_eq in He. subst. exact Hy.
  - intros H. exists x. split; [exact H | apply String.eqb_refl].
Qed.

Lemma kindOfRole_validRoles : forall role,
  In (Str.toUpperCase role) validRoles -> exists k, kindOfRole role = Some k.
Proof.
  intros role H. unfold kindOfRole.
  simpl in H. destruct H as [H|[H|[H|[H|[]]]]]; rewrite <- H; simpl; eauto.
Qed.

Lemma validateRegistration_role_only : forall request,
  validateRegistrationRequest (set_role request "TEACHER") = Success true ->
  validateRegistrationRequest request =
    if String.eqb (r_role request) EmptyString
       || negb (existsb (String.eqb (Str.toUpperCase (r_role request))) validRoles)
    then Failure "Valid role is required" else Success true.
Proof.
  intros request H. unfold validateRegistrationRequest in *. simpl in H.
  destruct (String.eqb (r_email request) EmptyString || negb (isValidEmail (r_email request)));
    [discriminate|].
  destruct (String.eqb (r_password request) EmptyString); [discriminate|].
  destruct (validatePassword (r_password request)); [|discriminate].
  destruct (String.eqb (r_firstName request) EmptyString
            || (String.length (Str.trim (r_firstName request)) <? 2)%nat); [discriminate|].
  destruct (String.eqb (r_lastName request) EmptyString
            || (String.length (Str.trim (r_lastName request)) <? 2)%nat); [discriminate|].
  simpl. destruct (_ || _); reflexivity.
Qed.

(** Claim C4 (amended): for a request whose other fields are valid, register
    proceeds to build a user of the role's class and hand it to the store's
    [create] exactly when the upper-cased role is TEACHER, STUDENT, ADMIN or
    SCHOOL_ADMIN; for any other role it returns the validation failure
    ["Valid role is required"]. *)
Theorem register_role_gate :
  forall hash svc st newId request,
  isReady (base svc) = true ->
  validateRegistrationRequest (set_role request "TEACHER") = Success true ->
  (In (Str.toUpperCase (r_role request)) validRoles ->
     validateRegistrationRequest request = Success true /\
     exists k, kindOfRole (r_role request) = Some k /\
       (findByEmail st (r_email request) = Success None ->
        register hash svc st newId request =
        match create st (newUser newId k request (hash (r_password request))) with
        | (Failure _, st') => (Returned (Failure CREATE_FAILED), st')
        | (Success u, st') => (Returned (Success u), st')
        end)) /\
  (~ In (Str.toUpperCase (r_role request)) validRoles ->
     register hash svc st newId request = (Returned (Failure "Valid role is required"), st)).
Proof.
  intros hash svc st newId request Hr Hv.
  apply validateRegistration_role_only in Hv.
  split.
  - intros Hin.
    assert (Hok : validateRegistrationRequest request = Success true).
    { rewrite Hv. apply existsb_eqb_In in Hin. rewrite Hin.
      destruct (String.eqb (r_role request) EmptyString) eqn:He; [|reflexivity].
      apply String.eqb_eq in He. rewrite He in Hin. discriminate. }
    split; [exact Hok|].
    destruct (kindOfRole_validRoles _ Hin) as [k Hk].
    exists k. split; [exact Hk|]. intros Hf.
    unfold register, validateReady. rewrite Hr. simpl. rewrite Hok, Hf, Hk. reflexivity.
  - intros Hnin. apply register_returns_validation_failure; [exact Hr|].
    rewrite Hv.
    destruct (existsb (String.eqb (Str.toUpperCase (r_role request))) validRoles) eqn:He.
    + apply existsb_eqb_In in He. contradiction.
    + rewrite orb_true_r. reflexivity.
Qed.

(** Claim C5 (counterexample): with the read path of the store failing, the
    pre-check misses an already registered email; the store's [create]
    rejects the write as a uniqueness violation, and register answers with the
    generic creation failure, not the conflict failure. *)
Lemma register_uniqueness_violation_not_conflict :
  let existing := newUser "u-0" TeacherUser (demo_request "Abcdef12" "TEACHER")
                    (demo_hash "Abcdef12") in
  let st := mkStore [existing] false true in
  fst (create st (newUser "u-1" TeacherUser (demo_request "Abcdef12" "TEACHER")
                    (demo_hash "Abcdef12")))
    = Failure "duplicate key value violates unique constraint" /\
  fst (register demo_hash demo_svc st "u-1" (demo_request "Abcdef12" "TEACHER"))
    = Returned (Failure CREATE_FAILED) /\
  CREATE_FAILED <> USER_EXISTS.
Proof. simpl. repeat split; discriminate. Qed.

(** Claim C5 (amended): for a valid request, register returns the conflict
    failure when the pre-check finds the email registered; when the pre-check
    finds nothing (or fails) and the store's [create] rejects the write for
    any reason, a uniqueness violation included, register returns the generic
    ["Failed to create user account"]. *)
Theorem register_conflict_and_create_failure :
  forall hash svc st newId request,
  isReady (base svc) = true ->
  validateRegistrationRequest request = Success true ->
  (forall u, findByEmail st (r_email request) = Success (Some u) ->
     register hash svc st newId request = (Returned (Failure USER_EXISTS), st)) /\
  (forall k e,
     (forall u, findByEmail st (r_email request) <> Success (Some u)) ->
     kindOfRole (r_role request) = Some k ->
     fst (create st (newUser newId k request (hash (r_password request)))) = Failure e ->
     fst (register hash svc st newId request) = Returned (Failure CREATE_FAILED)).
Proof.
  intros hash svc st newId request Hr Hv. split.
  - intros u Hf. unfold register, validateReady. rewrite Hr. simpl. rewrite Hv, Hf. reflexivity.
  - intros k e Hnf Hk Hc. unfold register, validateReady. rewrite Hr. simpl. rewrite Hv.
    destruct (findByEmail st (r_email request)) as [[u|]|] eqn:Hf.
    + exfalso. exact (Hnf u eq_refl).
    + rewrite Hk. destruct (create st _) as [res st'] eqn:Hcr.
      simpl in Hc. subst res. reflexivity.
    + rewrite Hk. destruct (create st _) as [res st'] eqn:Hcr.
      simpl in Hc. subst res. reflexivity.
Qed.

(* ------------------------------------------------------------------------- *)
(** ** login *)

Lemma loginGuard_none : forall u, loginGuard u = None <-> canLogin u = true.
Proof.
  intros u. unfold loginGuard, canLogin.
  destruct (isActive u), (isVerified u), (isLocked u); simpl; split; congruence.
Qed.

Lemma loginGuard_locked : forall u, isLocked u = true -> loginGuard u = Some ACCOUNT_LOCKED.
Proof.
  intros u H. unfold loginGuard, canLogin. rewrite H.
  destruct (isActive u), (isVerified u); reflexivity.
Qed.

Lemma login_not_found : forall cmp svc st now e p,
  isReady (base svc) = true ->
  findByEmail st e = Success None ->
  login cmp svc st now (mkLoginRequest e p) = (Returned (Failure AUTH_FAILED), st).
Proof.
  intros cmp svc st now e p Hr Hf. unfold login, validateReady. rewrite Hr. simpl.
  rewrite Hf. reflexivity.
Qed.

Lemma login_store_failure : forall cmp svc st now e p m,
  isReady (base svc) = true ->
  findByEmail st e = Failure m ->
  login cmp svc st now (mkLoginRequest e p) = (Returned (Failure AUTH_FAILED), st).
Proof.
  intros cmp svc st now e p m Hr Hf. unfold login, validateReady. rewrite Hr. simpl.
  rewrite Hf. reflexivity.
Qed.

Lemma login_ineligible : forall cmp svc st now e p u m,
  isReady (base svc) = true ->
  findByEmail st e = Success (Some u) ->
  loginGuard u = Some m ->
  login cmp svc st now (mkLoginRequest e p) = (Returned (Failure m), st).
Proof.
  intros cmp svc st now e p u m Hr Hf Hg. unfold login, validateReady. rewrite Hr. simpl.
  rewrite Hf, Hg. reflexivity.
Qed.

Lemma login_wrong_password : forall cmp svc st now e p u,
  isReady (base svc) = true ->
  findByEmail st e = Success (Some u) ->
  canLogin u = true ->
  cmp p (passwordHash u) = false ->
  login cmp svc st now (mkLoginRequest e p) =
    (Returned (Failure AUTH_FAILED), snd (update st (id u) (recordFailedLogin now u))).
Proof.
  intros cmp svc st now e p u Hr Hf Hc Hp. apply loginGuard_none in Hc.
  unfold login, validateReady. rewrite Hr. simpl. rewrite Hf, Hc. simpl. rewrite Hp. reflexivity.
Qed.

Lemma login_right_password : forall cmp svc st now e p u,
  isReady (base svc) = true ->
  findByEmail st e = Success (Some u) ->
  canLogin u = true ->
  cmp p (passwordHash u) = true ->
  let u' := recordSuccessfulLogin now u in
  let st' := snd (update st (id u) u') in
  login cmp svc st now (mkLoginRequest e p) =
    match generateAccessToken svc now u', generateRefreshToken svc now u' with
    | Some at_, Some rt => (Returned (Success (mkLoginResponse u' at_ rt (15 * 60))), st')
    | _, _ => (Returned (Failure AUTH_FAILED), st')
    end.
Proof.
  intros cmp svc st now e p u Hr Hf Hc Hp. apply loginGuard_none in Hc.
  unfold login, validateReady. rewrite Hr. simpl. rewrite Hf, Hc. simpl. rewrite Hp. reflexivity.
Qed.

(** Claim C1 (counterexample): with an inactive or a locked account stored,
    a wrong password for its email gets a message other than the
    ["Authentication failed"] given for an unknown email. *)
Lemma login_wrong_password_ineligible_differs :
  fst (login demo_compare demo_svc (mkStore [demo_user false true 0] true true) 0
         (mkLoginRequest "nobody@school.in" "Wrong123")) = Returned (Failure AUTH_FAILED) /\
  fst (login demo_compare demo_svc (mkStore [demo_user false true 0] true true) 0
         (mkLoginRequest "ana@school.in" "Wrong123")) = Returned (Failure "Account is inactive") /\
  fst (login demo_compare demo_svc (mkStore [demo_user true true 5] true true) 0
         (mkLoginRequest "ana@school.in" "Wrong123")) = Returned (Failure ACCOUNT_LOCKED) /\
  AUTH_FAILED <> "Account is inactive" /\ AUTH_FAILED <> ACCOUNT_LOCKED.
Proof. repeat split; vm_compute; congruence. Qed.

(** Claim C1 (amended): an unknown email and a wrong password for a stored
    account eligible to log in (active, verified, not locked) give the same
    failure Result ["Authentication failed"]; a stored account that is not
    eligible gets its own locked, inactive or unverified message whatever the
    password. *)
Theorem login_not_found_eq_wrong_password :
  forall cmp svc st now e1 p1 e2 p2 u,
  isReady (base svc) = true ->
  findByEmail st e1 = Success None ->
  findByEmail st e2 = Success (Some u) ->
  (canLogin u = true -> cmp p2 (passwordHash u) = false ->
     fst (login cmp svc st now (mkLoginRequest e1 p1)) = Returned (Failure AUTH_FAILED) /\
     fst (login cmp svc st now (mkLoginRequest e2 p2)) = Returned (Failure AUTH_FAILED)) /\
  (canLogin u = false ->
     exists m, loginGuard u = Some m /\
       m <> AUTH_FAILED /\
       fst (login cmp svc st now (mkLoginRequest e2 p2)) = Returned (Failure m)).
Proof.
  intros cmp svc st now e1 p1 e2 p2 u Hr H1 H2. split.
  - intros Hc Hp. split.
    + rewrite (login_not_found cmp svc st now e1 p1 Hr H1). reflexivity.
    + rewrite (login_wrong_password cmp svc st now e2 p2 u Hr H2 Hc Hp). reflexivity.
  - intros Hc.
    assert (Hg : exists m, loginGuard u = Some m /\ m <> AUTH_FAILED).
    { unfold loginGuard. rewrite Hc. simpl.
      destruct (isLocked u) eqn:Hl; [eexists; split; [reflexivity|discriminate]|].
      destruct (isActive u) eqn:Ha; [|eexists; split; [reflexivity|discriminate]].
      destruct (isVerified u) eqn:Hv; [|eexists; split; [reflexivity|discriminate]].
      unfold canLogin in Hc. rewrite Ha, Hv, Hl in Hc. discriminate. }
    destruct Hg as [m [Hg Hm]]. exists m. split; [exact Hg|]. split; [exact Hm|].
    rewrite (login_ineligible cmp svc st now e2 p2 u m Hr H2 Hg). reflexivity.
Qed.

(** Claim C6 (counterexample): with the store's reads failing, login returns
    exactly the failure Result of a wrong password against a working store. *)
Lemma login_store_down_same_as_wrong_password :
  fst (login demo_compare demo_svc (mkStore [demo_user true true 0] false true) 0
         (mkLoginRequest "ana@school.in" "Abcdef12"))
  = fst (login demo_compare demo_svc (mkStore [demo_user true true 0] true true) 0
           (mkLoginRequest "ana@school.in" "Wrong123")) /\
  fst (login demo_compare demo_svc (mkStore [demo_user true true 0] false true) 0
         (mkLoginRequest "ana@school.in" "Abcdef12")) = Returned (Failure AUTH_FAILED).
Proof. split; vm_compute; reflexivity. Qed.

(** Claim C6 (amended): an infrastructure failure during login, a failed read
    of the store or a missing access-token signing key, is reported with the
    same failure ["Authentication failed"] as wrong credentials. *)
Theorem login_infrastructure_failure_opaque :
  forall cmp svc st now e p,
  isReady (base svc) = true ->
  (forall m, findByEmail st e = Failure m ->
     fst (login cmp svc st now (mkLoginRequest e p)) = Returned (Failure AUTH_FAILED)) /\
  (forall u, findByEmail st e = Success (Some u) -> canLogin u = true ->
     jwtSecret svc = EmptyString ->
     fst (login cmp svc st now (mkLoginRequest e p)) = Returned (Failure AUTH_FAILED)).
Proof.
  intros cmp svc st now e p Hr. split.
  - intros m Hf. rewrite (login_store_failure cmp svc st now e p m Hr Hf). reflexivity.
  - intros u Hf Hc Hk.
    destruct (cmp p (passwordHash u)) eqn:Hp.
    + rewrite (login_right_password cmp svc st now e p u Hr Hf Hc Hp).
      unfold generateAccessToken, jwt_sign. rewrite Hk. reflexivity.
    + rewrite (login_wrong_password cmp svc st now e p u Hr Hf Hc Hp). reflexivity.
Qed.

(* ------------------------------------------------------------------------- *)
(** ** Store lemmas *)

Lemma find_email_in : forall e l u,
  find (fun v => String.eqb (email v) e) l = Some u -> In u l.
Proof. intros e l u H. apply find_some in H. tauto. Qed.

Lemma find_id_unique : forall l u,
  NoDup (map id l) -> In u l -> find (fun v => String.eqb (id v) (id u)) l = Some u.
Proof.
  induction l as [|v r IH]; intros u Hnd Hin; [destruct Hin|].
  simpl in *. inversion Hnd as [|x y Hnotin Hnd']; subst.
  destruct Hin as [<-|Hin].
  - rewrite String.eqb_refl. reflexivity.
  - destruct (String.eqb (id v) (id u)) eqn:He.
    + apply String.eqb_eq in He. exfalso. apply Hnotin. rewrite He. apply in_map. exact Hin.
    + apply IH; assumption.
Qed.

Lemma find_replaceById : forall i u' l,
  id u' = i -> existsb (fun v => String.eqb (id v) i) l = true ->
  find (fun v => String.eqb (id v) i) (replaceById i u' l) = Some u'.
Proof.
  induction l as [|v r IH]; intros Hid Hex; simpl in *; [discriminate|].
  destruct (String.eqb (id v) i) eqn:He; simpl.
  - rewrite Hid, String.eqb_refl. reflexivity.
  - rewrite He. apply IH; assumption.
Qed.

Lemma update_flags : forall st i u,
  readOk (snd (update st i u)) = readOk st /\ writeOk (snd (update st i u)) = writeOk st.
Proof.
  intros st i u. unfold update.
  destruct (negb (writeOk st)); [auto|].
  destruct (existsb _ _); simpl; auto.
Qed.

(** After writing back [u'] under the id of a stored [u], a lookup by that id
    yields [u'] (write applied) or [u] (write failed). *)
Lemma findById_after_update : forall st u u',
  readOk st = true -> NoDup (map id (users st)) -> In u (users st) -> id u' = id u ->
  findById (snd (update st (id u) u')) (id u) = Success (Some u') \/
  findById (snd (update st (id u) u')) (id u) = Success (Some u).
Proof.
  intros st u u' Hr Hnd Hin Hid. unfold update, findById.
  destruct (writeOk st); simpl.
  - assert (Hex : existsb (fun v => String.eqb (id v) (id u)) (users st) = true).
    { apply existsb_exists. exists u. split; [exact Hin | apply String.eqb_refl]. }
    rewrite Hex. simpl. rewrite Hr. left. f_equal. f_equal.
    apply find_replaceById; assumption.
  - rewrite Hr. right. rewrite find_id_unique; auto.
Qed.

Lemma login_success_inv : forall cmp svc st now request resp st',
  login cmp svc st now request = (Returned (Success resp), st') ->
  exists u, findByEmail st (l_email request) = Success (Some u) /\
    canLogin u = true /\
    user resp = recordSuccessfulLogin now u /\
    st' = snd (update st (id u) (recordSuccessfulLogin now u)) /\
    generateAccessToken svc now (user resp) = Some (accessToken resp).
Proof.
  intros cmp svc st now request resp st' H. unfold login in H.
  destruct (validateReady (base svc)); [|discriminate].
  destruct (findByEmail st (l_email request)) as [[u|]|] eqn:Hf; try discriminate.
  destruct (loginGuard u) eqn:Hg; [discriminate|].
  destruct (negb (cmp (l_password request) (passwordHash u))); [discriminate|].
  destruct (generateAccessToken svc now (recordSuccessfulLogin now u)) eqn:Ha;
    [|discriminate].
  destruct (generateRefreshToken svc now (recordSuccessfulLogin now u)); [|discriminate].
  injection H as <- <-. exists u. simpl.
  repeat split; auto. apply loginGuard_none. exact Hg.
Qed.

(** Claim C3: the access token of a successful login is accepted by
    verifyToken until its expiry instant (15 minutes after the login), which
    returns the re-fetched stored user with the id of the logged-in user;
    any access token whose expiry instant has passed, that one included, is
    refused with ["Invalid token"]. *)
Theorem login_verifyToken_roundtrip :
  forall cmp svc st now request resp st',
  isReady (base svc) = true ->
  NoDup (map id (users st)) ->
  login cmp svc st now request = (Returned (Success resp), st') ->
  (forall later, (later < now + accessTokenExpiry)%Z ->
     exists u, verifyToken svc st' later (accessToken resp) = Returned (Success u) /\
               id u = id (user resp)) /\
  (forall later, (now + accessTokenExpiry <= later)%Z ->
     verifyToken svc st' later (accessToken resp) = Returned (Failure "Invalid token")) /\
  (forall st'' later p key, (exp p <= later)%Z ->
     verifyToken svc st'' later (Signed p key) = Returned (Failure "Invalid token")).
Proof.
  intros cmp svc st now request resp st' Hr Hnd Hl.
  destruct (login_success_inv _ _ _ _ _ _ _ Hl) as [u [Hf [Hc [Hu [Hst Ha]]]]].
  unfold generateAccessToken, jwt_sign in Ha.
  destruct (String.eqb (jwtSecret svc) EmptyString) eqn:Hk; [discriminate|].
  injection Ha as Ha.
  assert (Hread : readOk st = true).
  { unfold findByEmail in Hf. destruct (readOk st); [reflexivity|discriminate]. }
  assert (Hin : In u (users st)).
  { unfold findByEmail in Hf. rewrite Hread in Hf. injection Hf as Hf.
    eapply find_email_in. exact Hf. }
  split; [|split].
  - intros later Hlt.
    unfold verifyToken, validateReady. rewrite Hr. simpl.
    rewrite <- Ha. unfold jwt_verify. rewrite Hk, String.eqb_refl. simpl.
    destruct (now + accessTokenExpiry <=? later)%Z eqn:He; [apply Z.leb_le in He; lia|].
    simpl. rewrite Hu. simpl.
    destruct (findById_after_update st u (recordSuccessfulLogin now u) Hread Hnd Hin eq_refl)
      as [Hb | Hb]; rewrite <- Hst in Hb; rewrite Hb; simpl;
      unfold canLogin in Hc; destruct (isActive u) eqn:Hact; try discriminate; simpl;
      eexists; split; reflexivity.
  - intros later Hge.
    unfold verifyToken, validateReady. rewrite Hr. simpl.
    rewrite <- Ha. unfold jwt_verify. rewrite Hk, String.eqb_refl. simpl.
    apply Z.leb_le in Hge. rewrite Hge. reflexivity.
  - intros st'' later p key Hexp.
    unfold verifyToken, validateReady. rewrite Hr. simpl. unfold jwt_verify.
    destruct (String.eqb (jwtSecret svc) EmptyString); [reflexivity|].
    destruct (negb (String.eqb key (jwtSecret svc))); [reflexivity|].
    apply Z.leb_le in Hexp. rewrite Hexp. reflexivity.
Qed.

(* ------------------------------------------------------------------------- *)
(** ** Lockout *)

Lemma map_id_replaceById : forall i u' l,
  id u' = i -> map id (replaceById i u' l) = map id l.
Proof.
  induction l as [|v r IH]; intros Hid; simpl; [reflexivity|].
  destruct (String.eqb (id v) i) eqn:He; simpl.
  - apply String.eqb_eq in He. rewrite Hid, He. reflexivity.
  - rewrite IH; auto.
Qed.

Lemma find_email_replaceById : forall e u u' l,
  NoDup (map id l) ->
  find (fun v => String.eqb (email v) e) l = Some u ->
  id u' = id u -> email u' = e ->
  find (fun v => String.eqb (email v) e) (replaceById (id u) u' l) = Some u'.
Proof.
  intros e u u' l. induction l as [|v r IH]; intros Hnd Hf Hid Hem; simpl in *; [discriminate|].
  apply NoDup_cons_iff in Hnd as [Hnotin Hnd'].
  destruct (String.eqb (email v) e) eqn:Hve.
  - injection Hf as <-. rewrite String.eqb_refl. simpl. rewrite Hem, String.eqb_refl. reflexivity.
  - destruct (String.eqb (id v) (id u)) eqn:Hvi.
    + apply String.eqb_eq in Hvi. exfalso. apply Hnotin. rewrite Hvi.
      apply in_map. eapply find_email_in. exact Hf.
    + simpl. rewrite Hve. apply IH; assumption.
Qed.

(** Writing back a record with the same id and email keeps the store
    well-formed and makes it the account of that email. *)
Lemma update_account : forall st e u u',
  writeOk st = true -> readOk st = true -> NoDup (map id (users st)) ->
  findByEmail st e = Success (Some u) -> id u' = id u -> email u' = e ->
  let st' := snd (update st (id u) u') in
  readOk st' = true /\ writeOk st' = true /\ NoDup (map id (users st')) /\
  findByEmail st' e = Success (Some u').
Proof.
  intros st e u u' Hw Hr Hnd Hf Hid Hem st'.
  unfold findByEmail in Hf. rewrite Hr in Hf. injection Hf as Hf.
  assert (Hex : existsb (fun v => String.eqb (id v) (id u)) (users st) = true).
  { apply existsb_exists. exists u. split; [eapply find_email_in; exact Hf | apply String.eqb_refl]. }
  unfold st', update. rewrite Hw, Hex. simpl.
  repeat split; auto.
  - rewrite map_id_replaceById; auto.
  - unfold findByEmail. simpl. rewrite Hr. f_equal.
    apply find_email_replaceById; assumption.
Qed.


(** One login call with a wrong password on an active, verified account:
    a failure, and the counter grows by one unless the account is locked. *)
Lemma login_wrong_password_step : forall cmp svc st t e p u v,
  isReady (base svc) = true ->
  AccountInv st e u v ->
  cmp p (passwordHash u) = false ->
  (exists m, fst (login cmp svc st t (mkLoginRequest e p)) = Returned (Failure m)) /\
  exists v', AccountInv (snd (login cmp svc st t (mkLoginRequest e p))) e u v' /\
    failedLoginAttempts v' =
      if isLocked v then failedLoginAttempts v else S (failedLoginAttempts v).
Proof.
  intros cmp svc st t e p u v Hr [Hro [Hwo [Hnd [Hf [Hid [Hem [Hph [Ha Hv]]]]]]]] Hp.
  destruct (isLocked v) eqn:Hl.
  - rewrite (login_ineligible cmp svc st t e p v ACCOUNT_LOCKED Hr Hf (loginGuard_locked v Hl)).
    split; [eexists; reflexivity|]. exists v. split; [|reflexivity].
    repeat split; assumption.
  - assert (Hc : canLogin v = true).
    { unfold canLogin. rewrite Ha, Hv, Hl. reflexivity. }
    rewrite <- Hph in Hp.
    rewrite (login_wrong_password cmp svc st t e p v Hr Hf Hc Hp).
    split; [eexists; reflexivity|]. exists (recordFailedLogin t v). simpl.
    destruct (update_account st e v (recordFailedLogin t v) Hwo Hro Hnd Hf eq_refl Hem)
      as [H1 [H2 [H3 H4]]].
    split; [|reflexivity].
    repeat split; assumption.
Qed.

Lemma loginSeq_wrong_passwords : forall cmp svc attempts st e u v,
  isReady (base svc) = true ->
  AccountInv st e u v ->
  Forall (fun tp => cmp (snd tp) (passwordHash u) = false) attempts ->
  let res := loginSeq cmp svc st (map (fun tp => (fst tp, mkLoginRequest e (snd tp))) attempts) in
  Forall (fun o => exists m, o = Returned (Failure m)) (fst res) /\
  exists v', AccountInv (snd res) e u v' /\
    (Nat.min (failedLoginAttempts v + length attempts) LOCK_THRESHOLD <= failedLoginAttempts v')%nat.
Proof.
  intros cmp svc attempts. induction attempts as [|[t p] r IH];
    intros st e u v Hr Hinv Hall res.
  - simpl in res. unfold res. simpl. split; [constructor|].
    exists v. split; [exact Hinv | lia].
  - inversion Hall as [|x y Hp Hr']; subst. simpl in Hp.
    destruct (login_wrong_password_step cmp svc st t e p u v Hr Hinv Hp)
      as [[m Hm] [v1 [Hinv1 Hc1]]].
    unfold res. simpl.
    destruct (login cmp svc st t (mkLoginRequest e p)) as [o st1] eqn:Hlog. simpl in *.
    destruct (IH st1 e u v1 Hr Hinv1 Hr') as [Hos [v' [Hinv' Hc']]].
    destruct (loginSeq cmp svc st1 _) as [os st2] eqn:Hseq. simpl in *.
    split; [constructor; [eexists; exact Hm | exact Hos]|].
    exists v'. split; [exact Hinv'|].
    unfold isLocked, LOCK_THRESHOLD in *.
    destruct (5 <=? failedLoginAttempts v)%nat eqn:Hl.
    + apply Nat.leb_le in Hl. lia.
    + apply Nat.leb_gt in Hl. lia.
Qed.

Lemma find_email_eq : forall e l u,
  find (fun v => String.eqb (email v) e) l = Some u -> email u = e.
Proof. intros e l u H. apply find_some in H. apply String.eqb_eq. tauto. Qed.

Lemma findByEmail_email : forall st e u,
  findByEmail st e = Success (Some u) -> email u = e /\ readOk st = true.
Proof.
  intros st e u H. unfold findByEmail in H. destruct (readOk st); [|discriminate].
  injection H as H. split; [eapply find_email_eq; exact H | reflexivity].
Qed.

Lemma login_success_resets_counter : forall cmp svc st t request resp st',
  login cmp svc st t request = (Returned (Success resp), st') ->
  failedLoginAttempts (user resp) = 0%nat /\
  (writeOk st = true -> NoDup (map id (users st)) ->
   findByEmail st' (l_email request) = Success (Some (user resp))).
Proof.
  intros cmp svc st t request resp st' Hl.
  destruct (login_success_inv _ _ _ _ _ _ _ Hl) as [u [Hf [_ [Hu [Hst _]]]]].
  rewrite Hu. split; [reflexivity|]. intros Hw Hnd.
  destruct (findByEmail_email _ _ _ Hf) as [Hem Hr].
  rewrite Hst.
  destruct (update_account st (l_email request) u (recordSuccessfulLogin t u)
              Hw Hr Hnd Hf eq_refl Hem) as [_ [_ [_ H]]].
  exact H.
Qed.

Lemma unlockAccount_resets : forall st e now admin v,
  writeOk st = true -> NoDup (map id (users st)) ->
  findByEmail st e = Success (Some v) ->
  findByEmail (unlockAccount st now admin v) e = Success (Some (unlock now admin v)) /\
  failedLoginAttempts (unlock now admin v) = 0%nat /\ isLocked (unlock now admin v) = false.
Proof.
  intros st e now admin v Hw Hnd Hf.
  destruct (findByEmail_email _ _ _ Hf) as [Hem Hr].
  split; [|split; reflexivity].
  destruct (update_account st e v (unlock now admin v) Hw Hr Hnd Hf eq_refl Hem) as [_ [_ [_ H]]].
  exact H.
Qed.

(** Claim C2: five consecutive wrong-password login calls on an active,
    verified account all fail and leave it LOCKED; while the stored account
    is locked every login call fails with the lock message, whatever the
    password and whatever the password check would answer, and leaves the
    store unchanged; the unlock action resets the counter to 0; every
    successful login resets the counter to 0 in the returned and the stored
    user. *)
Theorem lockout_policy :
  forall cmp svc st e u attempts,
  isReady (base svc) = true ->
  AccountInv st e u u ->
  length attempts = 5%nat ->
  Forall (fun tp => cmp (snd tp) (passwordHash u) = false) attempts ->
  let res := loginSeq cmp svc st (map (fun tp => (fst tp, mkLoginRequest e (snd tp))) attempts) in
  (Forall (fun o => exists m, o = Returned (Failure m)) (fst res) /\
   exists v, findByEmail (snd res) e = Success (Some v) /\ isLocked v = true) /\
  (forall cmp' st1 v t p,
     findByEmail st1 e = Success (Some v) -> isLocked v = true ->
     login cmp' svc st1 t (mkLoginRequest e p) = (Returned (Failure ACCOUNT_LOCKED), st1)) /\
  (forall st1 now admin v,
     writeOk st1 = true -> NoDup (map id (users st1)) ->
     findByEmail st1 e = Success (Some v) ->
     findByEmail (unlockAccount st1 now admin v) e = Success (Some (unlock now admin v)) /\
     failedLoginAttempts (unlock now admin v) = 0%nat /\ isLocked (unlock now admin v) = false) /\
  (forall cmp' st1 t request resp st2,
     login cmp' svc st1 t request = (Returned (Success resp), st2) ->
     failedLoginAttempts (user resp) = 0%nat /\
     (writeOk st1 = true -> NoDup (map id (users st1)) ->
      findByEmail st2 (l_email request) = Success (Some (user resp)))).
Proof.
  intros cmp svc st e u attempts Hr Hinv Hlen Hall res.
  split; [|split; [|split]].
  - destruct (loginSeq_wrong_passwords cmp svc attempts st e u u Hr Hinv Hall)
      as [Hos [v [Hinv' Hc]]].
    split; [exact Hos|]. exists v.
    destruct Hinv' as [_ [_ [_ [Hf _]]]]. split; [exact Hf|].
    rewrite Hlen in Hc. unfold isLocked, LOCK_THRESHOLD in *.
    apply Nat.leb_le. lia.
  - intros cmp' st1 v t p Hf Hl.
    apply (login_ineligible cmp' svc st1 t e p v ACCOUNT_LOCKED Hr Hf (loginGuard_locked v Hl)).
  - intros st1 now admin v Hw Hnd Hf. apply unlockAccount_resets; assumption.
  - intros cmp' st1 t request resp st2 Hl. eapply login_success_resets_counter. exact Hl.
Qed.

(* ------------------------------------------------------------------------- *)
(** ** Audit trail *)

(** Claim C8 (failing input): on a fresh entity (version 1, empty log), an
    audited update of the own property [version] to 10 commits one audit
    entry but leaves the version at 11, not 2; a following update of
    [auditLog] to a new empty array commits one entry into that array, so the
    earlier entry is gone from the log and the version is 12 with one entry
    logged; an update of [auditLog] to a primitive throws at the push, with
    the message JavaScript gives for that primitive. *)
Lemma auditUpdate_version_key_breaks_invariant :
  Audit.version Audit.demo_entity = Audit.VNum 1 /\ Audit.auditLog Audit.demo_entity = [] /\
  (exists e1,
     Audit.auditUpdate 100 Audit.demo_date [("version", Audit.VNum 10)] "admin" None
       Audit.demo_entity = Returned e1 /\
     length (Audit.auditLog e1) = 1%nat /\ Audit.version e1 = Audit.VNum 11 /\
     exists e2,
       Audit.auditUpdate 200 Audit.demo_date [("auditLog", Audit.VArray 50 [])] "admin" None e1
         = Returned e2 /\
       length (Audit.auditLog e2) = 1%nat /\ Audit.version e2 = Audit.VNum 12 /\
       (forall x, In x (Audit.auditLog e1) -> ~ In x (Audit.auditLog e2))) /\
  Audit.auditUpdate 100 Audit.demo_date [("auditLog", Audit.VNum 5)] "admin" None Audit.demo_entity
    = Thrown "TypeError: this.auditLog.push is not a function" /\
  Audit.auditUpdate 100 Audit.demo_date [("auditLog", Audit.VNull)] "admin" None Audit.demo_entity
    = Thrown "TypeError: Cannot read properties of null (reading 'push')".
Proof.
  split; [reflexivity|]. split; [reflexivity|].
  split; [|split; reflexivity].
  eexists. split; [reflexivity|]. split; [reflexivity|]. split; [reflexivity|].
  eexists. split; [reflexivity|]. split; [reflexivity|]. split; [reflexivity|].
  simpl. intros x [<-|[]] [H|[]]. discriminate H.
Qed.

(* ------------------------------------------------------------------------- *)
(** ** Witnesses: the claims' theorems applied to concrete inputs *)

Lemma login_not_found_eq_wrong_password_witness :
  findByEmail demo_store "nobody@school.in" = Success None /\
  findByEmail demo_store "ana@school.in" = Success (Some (demo_user true true 0)) /\
  fst (login demo_compare demo_svc demo_store 0 (mkLoginRequest "nobody@school.in" "Wrong123"))
    = Returned (Failure AUTH_FAILED) /\
  fst (login demo_compare demo_svc demo_store 0 (mkLoginRequest "ana@school.in" "Wrong123"))
    = Returned (Failure AUTH_FAILED).
Proof.
  split; [reflexivity|]. split; [reflexivity|].
  exact (proj1 (login_not_found_eq_wrong_password demo_compare demo_svc demo_store 0
                  "nobody@school.in" "Wrong123" "ana@school.in" "Wrong123" (demo_user true true 0)
                  eq_refl eq_refl eq_refl) eq_refl eq_refl).
Defined.

Lemma lockout_policy_witness :
  AccountInv demo_store "ana@school.in" (demo_user true true 0) (demo_user true true 0) /\
  exists v, findByEmail (snd (loginSeq demo_compare demo_svc demo_store
              (map (fun tp => (fst tp, mkLoginRequest "ana@school.in" (snd tp))) demo_attempts)))
              "ana@school.in" = Success (Some v) /\ isLocked v = true.
Proof.
  assert (Hinv : AccountInv demo_store "ana@school.in" (demo_user true true 0) (demo_user true true 0)).
  { unfold AccountInv. repeat split; try reflexivity.
    simpl. constructor; [simpl; tauto | constructor]. }
  split; [exact Hinv|].
  destruct (lockout_policy demo_compare demo_svc demo_store "ana@school.in"
              (demo_user true true 0) demo_attempts eq_refl Hinv eq_refl
              ltac:(repeat constructor)) as [[_ H] _].
  exact H.
Defined.

Lemma login_verifyToken_roundtrip_witness :
  exists resp st',
    login demo_compare demo_svc demo_store 0 (mkLoginRequest "ana@school.in" "Abcdef12")
      = (Returned (Success resp), st') /\
    exists u, verifyToken demo_svc st' 60%Z (accessToken resp) = Returned (Success u) /\
              id u = id (user resp).
Proof.
  do 2 eexists. split; [reflexivity|].
  refine (proj1 (login_verifyToken_roundtrip demo_compare demo_svc demo_store 0
                   (mkLoginRequest "ana@school.in" "Abcdef12") _ _ eq_refl _ eq_refl) 60%Z eq_refl).
  simpl. constructor; [simpl; tauto | constructor].
Defined.

Lemma register_role_gate_witness :
  validateRegistrationRequest (demo_request "Abcdef12" "teacher") = Success true /\
  register demo_hash demo_svc (mkStore [] true true) "u-1" (demo_request "Abcdef12" "PARENT")
    = (Returned (Failure "Valid role is required"), mkStore [] true true).
Proof.
  split.
  - exact (proj1 (proj1 (register_role_gate demo_hash demo_svc (mkStore [] true true) "u-1"
                           (demo_request "Abcdef12" "teacher") eq_refl eq_refl)
                    (or_introl eq_refl))).
  - exact (proj2 (register_role_gate demo_hash demo_svc (mkStore [] true true) "u-1"
                    (demo_request "Abcdef12" "PARENT") eq_refl eq_refl)
                 ltac:(simpl; intuition discriminate)).
Defined.

Lemma register_conflict_and_create_failure_witness :
  register demo_hash demo_svc demo_store "u-1" (demo_request "Abcdef12" "TEACHER")
    = (Returned (Failure USER_EXISTS), demo_store).
Proof.
  exact (proj1 (register_conflict_and_create_failure demo_hash demo_svc demo_store "u-1"
                  (demo_request "Abcdef12" "TEACHER") eq_refl eq_refl)
               (demo_user true true 0) eq_refl).
Defined.

Lemma login_infrastructure_failure_opaque_witness :
  fst (login demo_compare demo_svc (mkStore [demo_user true true 0] false true) 0
         (mkLoginRequest "ana@school.in" "Abcdef12")) = Returned (Failure AUTH_FAILED).
Proof.
  exact (proj1 (login_infrastructure_failure_opaque demo_compare demo_svc
                  (mkStore [demo_user true true 0] false true) 0 "ana@school.in" "Abcdef12" eq_refl)
               "Database unavailable" eq_refl).
Defined.

Lemma password_policy_register_witness :
  exists m, validateRegistrationRequest (demo_request "abc" "TEACHER") = Failure m /\
    register demo_hash demo_svc demo_store "u-1" (demo_request "abc" "TEACHER")
      = (Returned (Failure m), demo_store).
Proof.
  exact (proj1 (proj2 password_policy_register) demo_hash demo_svc demo_store "u-1"
               (demo_request "abc" "TEACHER") eq_refl eq_refl).
Defined.

Lemma authservice_readiness_guard_witness :
  returned (verifyToken (runLifecycle [Init] (newAuthService "access-secret" "refresh-secret"))
              demo_store 0 (Garbage "x")) = true /\
  verifyToken (runLifecycle [Init; Shutdown] (newAuthService "access-secret" "refresh-secret"))
    demo_store 0 (Garbage "x") = Thrown "Service AuthService is not ready".
Proof.
  split.
  - destruct (authservice_readiness_guard [Init] "access-secret" "refresh-secret"
                demo_hash demo_compare demo_store 0 (mkLoginRequest "a" "b") "u-1"
                (demo_request "Abcdef12" "TEACHER") (Garbage "x") "u-0" "a" "b")
      as [_ [_ Hready]].
    destruct (Hready eq_refl) as [_ [_ [_ [H _]]]]. exact H.
  - destruct (authservice_readiness_guard [Init; Shutdown] "access-secret" "refresh-secret"
                demo_hash demo_compare demo_store 0 (mkLoginRequest "a" "b") "u-1"
                (demo_request "Abcdef12" "TEACHER") (Garbage "x") "u-0" "a" "b")
      as [_ [Hnot _]].
    destruct (Hnot eq_refl) as [_ [_ [_ [H _]]]]. exact H.
Defined.

(* ========================================================================= *)
(** * Further properties of the code *)

(* ------------------------------------------------------------------------- *)
(** ** Result *)

(** [flatMap] satisfies the monad laws with [success] as unit. *)
Theorem flatMap_monad_laws :
  (forall (T U : Type) (f : T -> Result U) (x : T), ResultT.flatMap f (Success x) = f x) /\
  (forall (T : Type) (r : Result T), ResultT.flatMap Success r = r) /\
  (forall (T U V : Type) (f : T -> Result U) (g : U -> Result V) (r : Result T),
     ResultT.flatMap g (ResultT.flatMap f r) =
     ResultT.flatMap (fun x => ResultT.flatMap g (f x)) r).
Proof.
  split; [reflexivity|]. split.
  - intros T [d|e]; reflexivity.
  - intros T U V f g [d|e]; reflexivity.
Qed.

(** [map] passes a failure through with its message, for any [fn]; and two
    [map]s fuse into one even when the functions throw, since a caught throw
    becomes a failure that the second [map] passes through. *)
Theorem map_failure_and_fusion :
  (forall (T U : Type) (fn : T -> Outcome U) (e : string),
     ResultT.map fn (Failure e) = Failure e) /\
  (forall (T U V : Type) (f : T -> Outcome U) (g : U -> Outcome V) (r : Result T),
     ResultT.map g (ResultT.map f r) =
     ResultT.map (fun x => match f x with Returned y => g y | Thrown m => Thrown m end) r).
Proof.
  split; [reflexivity|].
  intros T U V f g [d|e]; simpl; [|reflexivity].
  destruct (f d) as [y|m]; reflexivity.
Qed.

(** [unwrapOrThrow] returns exactly what the [data] getter returns, and
    throws exactly the message the [error] getter returns. *)
Theorem unwrapOrThrow_getters :
  forall (T : Type) (r : Result T),
    (forall d, ResultT.unwrapOrThrow r = Returned d <-> ResultT.data r = Returned d) /\
    (forall m, ResultT.unwrapOrThrow r = Thrown m <-> ResultT.error r = Returned m) /\
    ResultT.match_ (fun d => Returned d) (fun e => Thrown e) r = ResultT.unwrapOrThrow r.
Proof.
  intros T [d|e]; simpl; repeat split; intros; try congruence.
Qed.

(* ------------------------------------------------------------------------- *)
(** ** Health *)

Lemma combineStatus_rank : forall o s,
  statusRank (combineStatus o s) = Nat.max (statusRank o) (statusRank s).
Proof. intros [] []; reflexivity. Qed.

Lemma fold_max_shift : forall l a b,
  fold_right Nat.max (Nat.max a b) l = Nat.max b (fold_right Nat.max a l).
Proof. induction l as [|x l IH]; intros a b; simpl; [lia|]. rewrite IH. lia. Qed.

Lemma fold_max_0 : forall l b,
  Nat.max (fold_right Nat.max 0 l) b = fold_right Nat.max b l.
Proof. induction l as [|x l IH]; intros b; simpl; [lia|]. rewrite <- (IH b). lia. Qed.

Lemma checkDependencies_rank : forall deps o,
  statusRank (snd (checkDependencies deps o)) =
  fold_right Nat.max (statusRank o)
    (List.map (fun d => outcomeRank (fun dh => statusRank (dh_status dh)) (snd d)) deps).
Proof.
  induction deps as [|[n [dh|m]] r IH]; intros o; simpl; [reflexivity| |].
  - destruct (checkDependencies r (combineStatus o (dh_status dh))) as [l o'] eqn:Hc.
    simpl. specialize (IH (combineStatus o (dh_status dh))). rewrite Hc in IH. simpl in IH.
    rewrite IH, combineStatus_rank, fold_max_shift. reflexivity.
  - destruct (checkDependencies r UNHEALTHY) as [l o'] eqn:Hc.
    simpl. specialize (IH UNHEALTHY). rewrite Hc in IH. simpl in IH. rewrite IH.
    replace 2%nat with (Nat.max (statusRank o) 2) at 1 by (destruct o; reflexivity).
    apply fold_max_shift.
Qed.

Lemma checkDependencies_thrown : forall deps o n m,
  In (n, Thrown m) deps ->
  In (mkDependencyHealth n UNHEALTHY (Some m)) (fst (checkDependencies deps o)).
Proof.
  induction deps as [|[n' [dh|m']] r IH]; intros o n m Hin; simpl in *; [destruct Hin| |].
  - destruct Hin as [Heq|Hin]; [discriminate|].
    destruct (checkDependencies r (combineStatus o (dh_status dh))) as [l o'] eqn:Hc.
    simpl. right. specialize (IH (combineStatus o (dh_status dh)) n m Hin). rewrite Hc in IH. exact IH.
  - destruct (checkDependencies r UNHEALTHY) as [l o'] eqn:Hc. simpl.
    destruct Hin as [Heq|Hin].
    + injection Heq as -> ->. left. reflexivity.
    + right. specialize (IH UNHEALTHY n m Hin). rewrite Hc in IH. exact IH.
Qed.

Lemma checkDependencies_length : forall deps o,
  length (fst (checkDependencies deps o)) = length deps.
Proof.
  induction deps as [|[n [dh|m]] r IH]; intros o; simpl; [reflexivity| |].
  - destruct (checkDependencies r _) as [l o'] eqn:Hc. simpl.
    specialize (IH (combineStatus o (dh_status dh))). rewrite Hc in IH. simpl in IH. rewrite IH. reflexivity.
  - destruct (checkDependencies r _) as [l o'] eqn:Hc. simpl.
    specialize (IH UNHEALTHY). rewrite Hc in IH. simpl in IH. rewrite IH. reflexivity.
Qed.

(** The overall status of [health()] is the most severe of the dependency
    results and the service-specific result, a rejected check counting as
    UNHEALTHY; one report is returned per dependency check, and each
    rejected check is reported UNHEALTHY under its registration name with
    the rejection message. *)
Theorem health_worst_of_checks :
  forall deps serviceSpecific,
  statusRank (fst (health deps serviceSpecific)) =
    fold_right Nat.max (outcomeRank statusRank serviceSpecific)
      (List.map (fun d => outcomeRank (fun dh => statusRank (dh_status dh)) (snd d)) deps) /\
  length (snd (health deps serviceSpecific)) = length deps /\
  (forall n m, In (n, Thrown m) deps ->
     In (mkDependencyHealth n UNHEALTHY (Some m)) (snd (health deps serviceSpecific))).
Proof.
  intros deps sc. unfold health.
  pose proof (checkDependencies_rank deps HEALTHY) as Hr.
  pose proof (checkDependencies_length deps HEALTHY) as Hl.
  pose proof (checkDependencies_thrown deps HEALTHY) as Ht.
  destruct (checkDependencies deps HEALTHY) as [l o]. simpl in *.
  destruct sc as [s|m]; simpl.
  - rewrite combineStatus_rank, Hr. split; [|split; assumption].
    simpl. apply fold_max_0.
  - split; [|split; assumption]. simpl. clear.
    induction deps as [|[n [[dn [] de]|m]] r IH]; simpl; rewrite <- ?IH; reflexivity.
Qed.

Lemma statusRank_inj : forall a b, statusRank a = statusRank b -> a = b.
Proof. intros [] [] H; simpl in H; congruence. Qed.

Lemma fold_max_perm : forall l l' a,
  Permutation l l' -> fold_right Nat.max a l = fold_right Nat.max a l'.
Proof.
  intros l l' a H. induction H; simpl; try lia.
Qed.

(** The overall status does not depend on the order in which the
    dependencies were registered. *)
Theorem health_status_order_independent :
  forall deps deps' serviceSpecific,
  Permutation deps deps' ->
  fst (health deps serviceSpecific) = fst (health deps' serviceSpecific).
Proof.
  intros deps deps' sc Hp. apply statusRank_inj.
  assert (Hr : forall d, statusRank (fst (health d sc)) =
     fold_right Nat.max (outcomeRank statusRank sc)
       (List.map (fun x => outcomeRank (fun dh => statusRank (dh_status dh)) (snd x)) d)).
  { intros d. unfold health. pose proof (checkDependencies_rank d HEALTHY) as Hc.
    destruct (checkDependencies d HEALTHY) as [l o]. simpl in Hc.
    destruct sc as [s|m]; simpl.
    - rewrite combineStatus_rank, Hc. apply fold_max_0.
    - clear. induction d as [|[n [[dn [] de]|m']] r IH]; simpl; rewrite <- ?IH; reflexivity. }
  rewrite !Hr. apply fold_max_perm. apply Permutation_map. exact Hp.
Qed.

(** AuthService's [doInitialize] registers the ['UserRepository'] check on
    the first [initialize] and re-sets the same entry on a later one. *)
Lemma authDependencies_shape : forall calls svc count deps,
  (deps = [("UserRepository", userRepositoryCheck count)] \/
   (deps = [] /\ isInitialized (base svc) = false)) ->
  authDependencies calls svc count deps =
    if existsb (LifecycleCall_eqb Init) calls
    then [("UserRepository", userRepositoryCheck count)] else deps.
Proof.
  induction calls as [|[] r IH]; intros svc count deps Hd; simpl; [reflexivity| |].
  - destruct (isInitialized (base svc)) eqn:Hi.
    + destruct Hd as [Hd|[_ Hf]]; [|congruence].
      rewrite IH by (left; exact Hd). destruct (existsb _ r); [reflexivity | exact Hd].
    + assert (Ha : addDependency "UserRepository" (userRepositoryCheck count) deps =
                   [("UserRepository", userRepositoryCheck count)]).
      { destruct Hd as [->|[-> _]]; reflexivity. }
      rewrite Ha, IH; [destruct (existsb _ r); reflexivity | left; reflexivity].
  - apply IH. destruct Hd as [Hd|[Hd Hi]]; [left; exact Hd|right; split; [exact Hd|]].
    unfold authShutdown, shutdown; simpl. destruct (isShuttingDown (base svc)); simpl; auto.
Qed.

Lemma runLifecycle_secrets : forall calls svc,
  jwtSecret (runLifecycle calls svc) = jwtSecret svc /\
  jwtRefreshSecret (runLifecycle calls svc) = jwtRefreshSecret svc.
Proof. induction calls as [|[] r IH]; intros svc; simpl; [auto| |]; rewrite !(proj1 (IH _)), !(proj2 (IH _)); auto. Qed.

(** AuthService's [health()] after any lifecycle trace is never DEGRADED: it
    is UNHEALTHY exactly when a JWT secret is empty, or when [initialize] has
    run and [userRepository.count()] rejects; a [count()] that resolves with a
    failed [Result] still counts as HEALTHY. *)
Theorem authHealth_status :
  forall calls secret refreshSecret count,
  fst (authHealth calls secret refreshSecret count) =
    if String.eqb secret EmptyString || String.eqb refreshSecret EmptyString
       || (existsb (LifecycleCall_eqb Init) calls && negb (returned count))
    then UNHEALTHY else HEALTHY.
Proof.
  intros calls secret refreshSecret count. unfold authHealth.
  rewrite authDependencies_shape by (right; split; reflexivity).
  unfold checkServiceHealth.
  destruct (runLifecycle_secrets calls (newAuthService secret refreshSecret)) as [H1 H2].
  rewrite H1, H2. simpl.
  destruct (existsb (LifecycleCall_eqb Init) calls), count as [c|m],
    (String.eqb secret EmptyString), (String.eqb refreshSecret EmptyString); reflexivity.
Qed.

(* ------------------------------------------------------------------------- *)
(** ** The two password validators *)

(** [ValidationUtils.validatePassword] is stricter than AuthService's
    [validatePassword]: whatever it accepts AuthService accepts; when
    AuthService rejects, the first error it collects carries AuthService's
    message; and when AuthService accepts, its only possible error is the
    missing special character. *)
Theorem shared_password_validator_refines_auth :
  forall p,
  (ValidationUtils.isValid (ValidationUtils.validatePassword p) = true ->
     validatePassword p = Success true) /\
  (forall m, validatePassword p = Failure m ->
     exists rest, List.map ValidationUtils.ve_message
                    (ValidationUtils.errors (ValidationUtils.validatePassword p)) = m :: rest) /\
  (validatePassword p = Success true ->
     ValidationUtils.errors (ValidationUtils.validatePassword p) =
       if Str.test ValidationUtils.isSpecial p then []
       else [ValidationUtils.pwError "Password must contain at least one special character"]).
Proof.
  intros p. unfold ValidationUtils.validatePassword, validatePassword. simpl.
  destruct (String.length p <? 8)%nat, (Str.test Str.isUpper p), (Str.test Str.isLower p),
    (Str.test Str.isDigit p), (Str.test ValidationUtils.isSpecial p);
    simpl; repeat split; intros; try discriminate;
    try (match goal with H : Failure _ = Failure _ |- _ => injection H as <- end);
    try (eexists; reflexivity); reflexivity.
Qed.

(* ------------------------------------------------------------------------- *)
(** ** register *)


Lemma existsb_find_none : forall (f : User -> bool) l,
  existsb f l = false -> find f l = None.
Proof.
  induction l as [|v r IH]; intros H; simpl in *; [reflexivity|].
  destruct (f v); [discriminate|]. apply IH. exact H.
Qed.






(* ------------------------------------------------------------------------- *)
(** ** changePassword *)

(** [changePassword] writes to the store only when it reports success; the
    result of the write-back is not checked, so with the store refusing
    writes it reports success for a correct current password and a valid new
    one while the stored hash stays the old one. *)
Theorem changePassword_write_unchecked :
  forall hash cmp svc st now uid cur np o st',
  changePassword hash cmp svc st now uid cur np = (o, st') ->
  (o <> Returned (Success true) -> st' = st) /\
  (writeOk st = false -> st' = st) /\
  (forall u, isReady (base svc) = true -> writeOk st = false ->
     findById st uid = Success (Some u) -> cmp cur (passwordHash u) = true ->
     validatePassword np = Success true ->
     o = Returned (Success true) /\ findById st' uid = Success (Some u)).
Proof.
  intros hash cmp svc st now uid cur np o st' H.
  assert (Hw : writeOk st = false -> forall u', snd (update st uid u') = st).
  { intros Hw u'. unfold update. rewrite Hw. reflexivity. }
  split; [|split].
  - intros Hne. unfold changePassword in H.
    destruct (validateReady (base svc)); [|injection H as _ <-; reflexivity].
    destruct (findById st uid) as [[u|]|]; try (injection H as _ <-; reflexivity).
    destruct (negb (cmp cur (passwordHash u))); [injection H as _ <-; reflexivity|].
    destruct (validatePassword np); [|injection H as _ <-; reflexivity].
    injection H as <- _. contradiction.
  - intros Hwo. unfold changePassword in H.
    destruct (validateReady (base svc)); [|injection H as _ <-; reflexivity].
    destruct (findById st uid) as [[u|]|]; try (injection H as _ <-; reflexivity).
    destruct (negb (cmp cur (passwordHash u))); [injection H as _ <-; reflexivity|].
    destruct (validatePassword np); [|injection H as _ <-; reflexivity].
    injection H as _ <-. apply Hw. exact Hwo.
  - intros u Hr Hwo Hf Hc Hv. unfold changePassword, validateReady in H.
    rewrite Hr in H. simpl in H. rewrite Hf, Hc, Hv in H. simpl in H.
    injection H as <- <-. rewrite (Hw Hwo). split; [reflexivity | exact Hf].
Qed.



(* ------------------------------------------------------------------------- *)
(** ** refreshToken and verifyToken *)

Lemma login_success_tokens : forall cmp svc st now request resp st',
  login cmp svc st now request = (Returned (Success resp), st') ->
  exists u, findByEmail st (l_email request) = Success (Some u) /\ canLogin u = true /\
    user resp = recordSuccessfulLogin now u /\
    st' = snd (update st (id u) (recordSuccessfulLogin now u)) /\
    isReady (base svc) = true /\
    jwtSecret svc <> EmptyString /\ jwtRefreshSecret svc <> EmptyString /\
    accessToken resp = Signed (mkPayload (id u) (email u) (roleOf u) (schoolId u)
                                 now (now + accessTokenExpiry)) (jwtSecret svc) /\
    refreshToken resp = Signed (mkPayload (id u) (email u) (roleOf u) None
                                 now (now + refreshTokenExpiry)) (jwtRefreshSecret svc).
Proof.
  intros cmp svc st now request resp st' H. unfold login in H.
  destruct (validateReady (base svc)) eqn:Hready; [|discriminate].
  destruct (findByEmail st (l_email request)) as [[u|]|] eqn:Hf; try discriminate.
  destruct (loginGuard u) eqn:Hg; [discriminate|].
  destruct (negb (cmp (l_password request) (passwordHash u))); [discriminate|].
  unfold generateAccessToken, generateRefreshToken, jwt_sign in H.
  destruct (String.eqb (jwtSecret svc) EmptyString) eqn:H1; [discriminate|].
  destruct (String.eqb (jwtRefreshSecret svc) EmptyString) eqn:H2; [discriminate|].
  injection H as <- <-. exists u. simpl.
  unfold validateReady in Hready. destruct (isReady (base svc)); [|discriminate].
  apply String.eqb_neq in H1, H2.
  repeat split; auto. apply loginGuard_none. exact Hg.
Qed.

Lemma canLogin_recordSuccessfulLogin : forall now u,
  canLogin u = true -> canLogin (recordSuccessfulLogin now u) = true.
Proof.
  intros now u H. unfold canLogin, isLocked in *. simpl.
  destruct (isActive u), (isVerified u); simpl in *; auto.
Qed.

(** The refresh token of a successful login is accepted by [refreshToken]
    until its expiry instant, 7 days after the login, on the store the login
    left: the answer is a fresh pair of tokens for the same account.  From
    the expiry instant on it is refused with ["Invalid refresh token"]. *)
Theorem login_refresh_roundtrip :
  forall cmp svc st now request resp st',
  login cmp svc st now request = (Returned (Success resp), st') ->
  NoDup (map id (users st)) ->
  (forall later, (later < now + refreshTokenExpiry)%Z ->
     exists resp', refreshTokenOp svc st' later (refreshToken resp) = Returned (Success resp') /\
       id (user resp') = id (user resp)) /\
  (forall later, (now + refreshTokenExpiry <= later)%Z ->
     refreshTokenOp svc st' later (refreshToken resp) = Returned (Failure "Invalid refresh token")).
Proof.
  intros cmp svc st now request resp st' Hl Hnd.
  destruct (login_success_tokens _ _ _ _ _ _ _ Hl)
    as [u [Hf [Hc [Hu [Hst [Hr [Hs1 [Hs2 [Ha Hrt]]]]]]]]].
  destruct (findByEmail_email _ _ _ Hf) as [_ Hread].
  assert (Hin : In u (users st)).
  { unfold findByEmail in Hf. rewrite Hread in Hf. injection Hf as Hf.
    eapply find_email_in. exact Hf. }
  apply String.eqb_neq in Hs1, Hs2.
  split.
  - intros later Hlt.
    unfold refreshTokenOp, validateReady. rewrite Hr. simpl.
    rewrite Hrt. unfold jwt_verify. rewrite Hs2, String.eqb_refl. simpl.
    destruct (now + refreshTokenExpiry <=? later)%Z eqn:He; [apply Z.leb_le in He; lia|]. simpl.
    unfold generateAccessToken, generateRefreshToken, jwt_sign. rewrite Hs1, Hs2.
    destruct (findById_after_update st u (recordSuccessfulLogin now u) Hread Hnd Hin eq_refl)
      as [Hb | Hb]; rewrite <- Hst in Hb; rewrite Hb.
    + rewrite (canLogin_recordSuccessfulLogin now u Hc). simpl.
      eexists. split; [reflexivity|]. rewrite Hu. reflexivity.
    + rewrite Hc. simpl. eexists. split; [reflexivity|]. rewrite Hu. reflexivity.
  - intros later Hge.
    unfold refreshTokenOp, validateReady. rewrite Hr. simpl.
    rewrite Hrt. unfold jwt_verify. rewrite Hs2, String.eqb_refl. simpl.
    apply Z.leb_le in Hge. rewrite Hge. reflexivity.
Qed.

(** With distinct access and refresh secrets the two tokens of a login are
    not interchangeable: the access token is refused by [refreshToken] and
    the refresh token by [verifyToken], at any time and on any store. *)
Theorem login_tokens_not_interchangeable :
  forall cmp svc st now request resp st',
  login cmp svc st now request = (Returned (Success resp), st') ->
  jwtSecret svc <> jwtRefreshSecret svc ->
  forall st'' later,
    refreshTokenOp svc st'' later (accessToken resp) = Returned (Failure "Invalid refresh token") /\
    verifyToken svc st'' later (refreshToken resp) = Returned (Failure "Invalid token").
Proof.
  intros cmp svc st now request resp st' Hl Hne st'' later.
  destruct (login_success_tokens _ _ _ _ _ _ _ Hl)
    as [u [_ [_ [_ [_ [Hr [Hs1 [Hs2 [Ha Hrt]]]]]]]]].
  apply String.eqb_neq in Hs1, Hs2.
  assert (Hk1 : String.eqb (jwtSecret svc) (jwtRefreshSecret svc) = false)
    by (apply String.eqb_neq; exact Hne).
  assert (Hk2 : String.eqb (jwtRefreshSecret svc) (jwtSecret svc) = false)
    by (apply String.eqb_neq; intros H; apply Hne; symmetry; exact H).
  unfold refreshTokenOp, verifyToken, validateReady. rewrite Hr. simpl.
  rewrite Ha, Hrt. unfold jwt_verify. rewrite Hs1, Hs2, Hk1, Hk2. split; reflexivity.
Qed.

(** [refreshToken] re-checks the full login eligibility of the stored
    account, while [verifyToken] checks only that it is active: an access
    token of an active account that is locked or unverified still verifies,
    and yields the stored record, not the token's claims. *)
Theorem refresh_checks_canLogin_verify_only_active :
  forall svc st now t p u,
  isReady (base svc) = true ->
  findById st (userId p) = Success (Some u) ->
  (jwt_verify t (jwtRefreshSecret svc) now = VerifyOk p -> canLogin u = false ->
     refreshTokenOp svc st now t = Returned (Failure "User account is not active")) /\
  (jwt_verify t (jwtSecret svc) now = VerifyOk p -> isActive u = true ->
     verifyToken svc st now t = Returned (Success u)).
Proof.
  intros svc st now t p u Hr Hf. split.
  - intros Hv Hc. unfold refreshTokenOp, validateReady. rewrite Hr. simpl.
    rewrite Hv, Hf, Hc. reflexivity.
  - intros Hv Ha. unfold verifyToken, validateReady. rewrite Hr. simpl.
    rewrite Hv, Hf, Ha. reflexivity.
Qed.

(* ------------------------------------------------------------------------- *)
(** ** What login never changes *)

Lemma replaceById_identity : forall l u u',
  NoDup (map id l) -> In u l -> accountIdentity u' = accountIdentity u ->
  map accountIdentity (replaceById (id u) u' l) = map accountIdentity l.
Proof.
  induction l as [|v r IH]; intros u u' Hnd Hin Hk; [reflexivity|].
  simpl in *. apply NoDup_cons_iff in Hnd as [Hnotin Hnd'].
  destruct (String.eqb (id v) (id u)) eqn:He.
  - destruct Hin as [<-|Hin]; simpl; [rewrite Hk; reflexivity|].
    apply String.eqb_eq in He. exfalso. apply Hnotin. rewrite He. apply in_map. exact Hin.
  - destruct Hin as [<-|Hin]; [rewrite String.eqb_refl in He; discriminate|].
    simpl. rewrite IH; auto.
Qed.

Lemma update_identity : forall st u u',
  NoDup (map id (users st)) -> In u (users st) -> accountIdentity u' = accountIdentity u ->
  map accountIdentity (users (snd (update st (id u) u'))) = map accountIdentity (users st) /\
  map id (users (snd (update st (id u) u'))) = map id (users st) /\
  readOk (snd (update st (id u) u')) = readOk st /\
  writeOk (snd (update st (id u) u')) = writeOk st.
Proof.
  intros st u u' Hnd Hin Hk. unfold update.
  destruct (negb (writeOk st)); [auto|].
  destruct (existsb _ _); simpl; [|auto].
  repeat split; auto.
  - apply replaceById_identity; assumption.
  - apply map_id_replaceById.
    assert (Hid : id u' = id u) by (unfold accountIdentity in Hk; congruence). exact Hid.
Qed.

Lemma login_identity : forall cmp svc st now request,
  NoDup (map id (users st)) ->
  let st' := snd (login cmp svc st now request) in
  map accountIdentity (users st') = map accountIdentity (users st) /\
  map id (users st') = map id (users st) /\
  readOk st' = readOk st /\ writeOk st' = writeOk st.
Proof.
  intros cmp svc st now request Hnd st'. unfold st', login.
  destruct (validateReady (base svc)); [|simpl; auto].
  destruct (findByEmail st (l_email request)) as [[u|]|] eqn:Hf; [| simpl; auto | simpl; auto].
  destruct (loginGuard u); [simpl; auto|].
  assert (Hin : In u (users st)).
  { unfold findByEmail in Hf. destruct (readOk st); [|discriminate].
    injection Hf as Hf. eapply find_email_in. exact Hf. }
  destruct (negb (cmp (l_password request) (passwordHash u))).
  - simpl. apply update_identity; auto.
  - destruct (generateAccessToken svc now (recordSuccessfulLogin now u)),
      (generateRefreshToken svc now (recordSuccessfulLogin now u));
      simpl; apply update_identity; auto.
Qed.

Lemma grows_refl : forall u, grows u u.
Proof. intros u. exists []. rewrite app_nil_r. split; [reflexivity | simpl; lia]. Qed.

Lemma grows_trans : forall u v w, grows u v -> grows v w -> grows u w.
Proof.
  intros u v w [l1 [A1 V1]] [l2 [A2 V2]]. exists (l1 ++ l2)%list.
  rewrite A2, A1, app_assoc. split; [reflexivity|]. rewrite V2, V1, length_app. lia.
Qed.

Lemma Forall2_grows_refl : forall l, Forall2 grows l l.
Proof. induction l; constructor; [apply grows_refl | assumption]. Qed.

Lemma Forall2_grows_trans : forall l1 l2 l3,
  Forall2 grows l1 l2 -> Forall2 grows l2 l3 -> Forall2 grows l1 l3.
Proof.
  intros l1 l2 l3 H12. revert l3.
  induction H12 as [|x y r1 r2 Hxy H IH]; intros l3 H23; inversion H23; subst;
    constructor; [eapply grows_trans; eassumption | apply IH; assumption].
Qed.

Lemma audited_grows : forall now actor ch u w,
  auditLog w = auditLog u -> version w = version u ->
  grows u (audited now actor ch w).
Proof.
  intros now actor ch u w Hl Hv. exists [Audit.mkEntry now actor Audit.UPDATE ch None].
  simpl. rewrite Hl, Hv. split; [reflexivity | lia].
Qed.

Lemma replaceById_grows : forall l u u',
  NoDup (map id l) -> In u l -> grows u u' ->
  Forall2 grows l (replaceById (id u) u' l).
Proof.
  induction l as [|v r IH]; intros u u' Hnd Hin Hg; [constructor|].
  simpl in *. apply NoDup_cons_iff in Hnd as [Hnotin Hnd'].
  destruct (String.eqb (id v) (id u)) eqn:He.
  - destruct Hin as [<-|Hin]; [constructor; [exact Hg | apply Forall2_grows_refl]|].
    apply String.eqb_eq in He. exfalso. apply Hnotin. rewrite He. apply in_map. exact Hin.
  - destruct Hin as [<-|Hin]; [rewrite String.eqb_refl in He; discriminate|].
    constructor; [apply grows_refl | apply IH; assumption].
Qed.

Lemma update_grows : forall st u u',
  NoDup (map id (users st)) -> In u (users st) -> grows u u' ->
  Forall2 grows (users st) (users (snd (update st (id u) u'))).
Proof.
  intros st u u' Hnd Hin Hg. unfold update.
  destruct (negb (writeOk st)); [apply Forall2_grows_refl|].
  destruct (existsb _ _); simpl; [|apply Forall2_grows_refl].
  apply replaceById_grows; assumption.
Qed.

Lemma login_grows : forall cmp svc st now request,
  NoDup (map id (users st)) ->
  Forall2 grows (users st) (users (snd (login cmp svc st now request))).
Proof.
  intros cmp svc st now request Hnd. unfold login.
  destruct (validateReady (base svc)); [|apply Forall2_grows_refl].
  destruct (findByEmail st (l_email request)) as [[u|]|] eqn:Hf;
    [| apply Forall2_grows_refl | apply Forall2_grows_refl].
  destruct (loginGuard u); [apply Forall2_grows_refl|].
  assert (Hin : In u (users st)).
  { unfold findByEmail in Hf. destruct (readOk st); [|discriminate].
    injection Hf as Hf. eapply find_email_in. exact Hf. }
  destruct (negb (cmp (l_password request) (passwordHash u))).
  - apply update_grows; [exact Hnd | exact Hin | apply audited_grows; reflexivity].
  - destruct (generateAccessToken svc now (recordSuccessfulLogin now u)),
      (generateRefreshToken svc now (recordSuccessfulLogin now u));
      apply update_grows; try exact Hnd; try exact Hin; apply audited_grows; reflexivity.
Qed.

(** However a sequence of login calls goes, it never alters an account's
    id, email, password hash, class, school or active and verified flags,
    nor adds, removes or reorders accounts; each account's audit log only
    grows, no entry removed, and its version rises by exactly the number of
    entries appended (ids unique in the store). *)
Theorem loginSeq_preserves_accounts :
  forall cmp svc reqs st,
  NoDup (map id (users st)) ->
  let st' := snd (loginSeq cmp svc st reqs) in
  map accountIdentity (users st') = map accountIdentity (users st) /\
  Forall2 grows (users st) (users st').
Proof.
  intros cmp svc reqs. induction reqs as [|[t r] rest IH]; intros st Hnd st'.
  - split; [reflexivity | apply Forall2_grows_refl].
  - unfold st'. simpl.
    destruct (login_identity cmp svc st t r Hnd) as [H1 [H2 _]].
    pose proof (login_grows cmp svc st t r Hnd) as Hg.
    destruct (login cmp svc st t r) as [o st1] eqn:Hl. simpl in *.
    specialize (IH st1). rewrite H2 in IH. specialize (IH Hnd).
    destruct (loginSeq cmp svc st1 rest) as [os st2] eqn:Hs. simpl in *.
    destruct IH as [I1 I2]. split.
    + rewrite I1. exact H1.
    + eapply Forall2_grows_trans; eassumption.
Qed.

(* ------------------------------------------------------------------------- *)
(** ** Registration validation and the email check *)

Lemma errors_concat_success : forall l1 l2 l3 l4 l5 : list string,
  match (l1 ++ l2 ++ l3 ++ l4 ++ l5)%list with
  | [] => Success true
  | _ => Failure (String.concat ", " (l1 ++ l2 ++ l3 ++ l4 ++ l5)%list)
  end = Success true <->
  l1 = [] /\ l2 = [] /\ l3 = [] /\ l4 = [] /\ l5 = [].
Proof.
  intros l1 l2 l3 l4 l5.
  destruct (l1 ++ l2 ++ l3 ++ l4 ++ l5)%list as [|x xs] eqn:Hl.
  - apply app_eq_nil in Hl as [H1 Hl]. apply app_eq_nil in Hl as [H2 Hl].
    apply app_eq_nil in Hl as [H3 Hl]. apply app_eq_nil in Hl as [H4 H5]. tauto.
  - split; [discriminate|]. intros [-> [-> [-> [-> ->]]]]. discriminate.
Qed.

Lemma errors_piece_nil : forall (c : bool) (m : string),
  (if c then [m] else []) = [] <-> c = false.
Proof. intros [] m; split; congruence. Qed.

Lemma email_piece : forall e,
  (String.eqb e EmptyString || negb (isValidEmail e)) = false <-> isValidEmail e = true.
Proof.
  intros e. destruct (String.eqb e EmptyString) eqn:E.
  - apply String.eqb_eq in E. subst e. split; discriminate.
  - simpl. destruct (isValidEmail e); split; auto.
Qed.

Lemma password_piece : forall p,
  (if String.eqb p EmptyString then ["Password is required"]
   else match validatePassword p with Failure e => [e] | Success _ => [] end) = [] <->
  validatePassword p = Success true.
Proof.
  intros p. destruct (String.eqb p EmptyString) eqn:E.
  - apply String.eqb_eq in E. subst p. split; discriminate.
  - destruct (validatePassword p) as [b|m] eqn:V; [|split; discriminate].
    assert (b = true) as ->.
    { unfold validatePassword in V.
      destruct (String.length p <? 8)%nat, (Str.test Str.isUpper p), (Str.test Str.isLower p),
        (Str.test Str.isDigit p); simpl in V; congruence. }
    split; reflexivity.
Qed.

Lemma name_piece : forall n,
  (String.eqb n EmptyString || (String.length (Str.trim n) <? 2)%nat) = false <->
  (2 <= String.length (Str.trim n))%nat.
Proof.
  intros n. destruct (String.eqb n EmptyString) eqn:E.
  - apply String.eqb_eq in E. subst n. simpl. split; [discriminate | intros H; lia].
  - simpl. destruct (String.length (Str.trim n) <? 2)%nat eqn:L;
      [apply Nat.ltb_lt in L | apply Nat.ltb_ge in L]; split; intros; auto; lia.
Qed.

Lemma role_piece : forall r,
  (String.eqb r EmptyString || negb (existsb (String.eqb (Str.toUpperCase r)) validRoles)) = false <->
  In (Str.toUpperCase r) validRoles.
Proof.
  intros r. rewrite <- existsb_eqb_In. destruct (String.eqb r EmptyString) eqn:E.
  - apply String.eqb_eq in E. subst r. split; discriminate.
  - rewrite orb_false_l.
    destruct (existsb (String.eqb (Str.toUpperCase r)) validRoles); split; auto.
Qed.

(** [validateRegistrationRequest] accepts exactly the requests whose email
    passes the email regex, whose password passes [validatePassword], whose
    trimmed first and last names have at least 2 characters and whose
    upper-cased role is TEACHER, STUDENT, ADMIN or SCHOOL_ADMIN; its separate
    checks for empty fields never decide anything of their own. *)
Theorem validateRegistration_accepts_iff :
  forall request,
  validateRegistrationRequest request = Success true <->
  isValidEmail (r_email request) = true /\
  validatePassword (r_password request) = Success true /\
  (2 <= String.length (Str.trim (r_firstName request)))%nat /\
  (2 <= String.length (Str.trim (r_lastName request)))%nat /\
  In (Str.toUpperCase (r_role request)) validRoles.
Proof.
  intros request. unfold validateRegistrationRequest.
  rewrite errors_concat_success, !errors_piece_nil, password_piece, email_piece,
    !name_piece, role_piece.
  tauto.
Qed.

Lemma splitAt_some : forall s a b,
  Str.splitAt s = Some (a, b) ->
  s = (a ++ String "@" b)%string /\ Str.test (fun c => (c =? "@")%char) a = false.
Proof.
  induction s as [|c r IH]; intros a b H; simpl in H; [discriminate|].
  destruct (c =? "@")%char eqn:Hc.
  - injection H as <- <-. apply Ascii.eqb_eq in Hc. subst c. split; reflexivity.
  - destruct (Str.splitAt r) as [[a' b']|] eqn:Hs; [|discriminate].
    injection H as <- <-. destruct (IH a' b' eq_refl) as [-> Ht].
    split; [reflexivity|]. simpl. rewrite Hc, Ht. reflexivity.
Qed.

Lemma all_notWsAt : forall s,
  Str.all Str.notWsAt s = true ->
  Str.test (fun c => (c =? "@")%char) s = false /\ Str.test Str.isWs s = false.
Proof.
  induction s as [|c r IH]; intros H; simpl in *; [auto|].
  apply andb_true_iff in H as [Hc Hr]. destruct (IH Hr) as [H1 H2].
  unfold Str.notWsAt in Hc. rewrite H1, H2.
  destruct (Str.isWs c), (c =? "@")%char; simpl in *; auto; discriminate.
Qed.

Lemma test_app : forall p a c b,
  Str.test p (a ++ String c b)%string = Str.test p a || p c || Str.test p b.
Proof.
  intros p a c b. induction a as [|x a IH]; simpl; [reflexivity|].
  rewrite IH. destruct (p x); reflexivity.
Qed.

Lemma dotBeforeLast_dot : forall s,
  Str.dotBeforeLast s = true -> Str.test (fun c => (c =? ".")%char) s = true.
Proof.
  induction s as [|c r IH]; intros H; simpl in *; [discriminate|].
  apply orb_true_iff in H as [H|H].
  - apply andb_true_iff in H as [H _]. rewrite H. reflexivity.
  - rewrite IH; [apply orb_true_r | exact H].
Qed.

(** An email accepted by [isValidEmail] consists of a non-empty local part,
    one ["@"] and a domain containing a ["."]: it has exactly one ["@"] and no
    whitespace character. *)
Theorem isValidEmail_shape :
  forall e, isValidEmail e = true ->
  exists local domain,
    e = (local ++ String "@" domain)%string /\ local <> EmptyString /\
    Str.test (fun c => (c =? "@")%char) local = false /\
    Str.test (fun c => (c =? "@")%char) domain = false /\
    Str.test (fun c => (c =? ".")%char) domain = true /\
    Str.test Str.isWs e = false.
Proof.
  intros e H. unfold isValidEmail, Str.emailRegexTest in H.
  destruct (Str.splitAt e) as [[a b]|] eqn:Hs; [|discriminate].
  apply andb_true_iff in H as [H Hd]. apply andb_true_iff in H as [H Hb].
  apply andb_true_iff in H as [Ha0 Ha].
  destruct (splitAt_some e a b Hs) as [He Hat].
  destruct (all_notWsAt a Ha) as [_ Hwa]. destruct (all_notWsAt b Hb) as [Hatb Hwb].
  exists a, b. split; [exact He|]. split.
  { intros ->. simpl in Ha0. discriminate. }
  split; [exact Hat|]. split; [exact Hatb|]. split.
  - destruct b as [|c r]; [discriminate|]. simpl. rewrite dotBeforeLast_dot; [apply orb_true_r | exact Hd].
  - rewrite He, test_app, Hwa, Hwb. reflexivity.
Qed.

(* ------------------------------------------------------------------------- *)
(** ** Audit trail queries *)

Module AuditQueryProofs.
Import Audit.

Lemma trackAll_noop : forall updates f ch,
  (forall k v, In (k, v) updates ->
     forall old, ownValue k f = Some old -> strictEq old v = true) ->
  trackAll f ch updates = (f, ch).
Proof.
  induction updates as [|[k v] r IH]; intros f ch H; [reflexivity|].
  simpl. destruct (ownValue k f) as [old|] eqn:Ho.
  - rewrite (H k v (or_introl eq_refl) old Ho).
    apply IH. intros; eapply H; [right|]; eassumption.
  - apply IH. intros; eapply H; [right|]; eassumption.
Qed.

(** An [auditUpdate] in which every key either names no own property of the
    entity or gives the value that property already holds under [===] (the
    same primitive, or the same object: a Date of equal time but another
    object differs) returns the entity unchanged: no audit entry, no version
    bump, no [updatedAt] touch. *)
Theorem auditUpdate_noop :
  forall now d updates uid md e,
  (forall k v, In (k, v) updates ->
     forall old, ownValue k (fieldsOf e) = Some old -> strictEq old v = true) ->
  auditUpdate now d updates uid md e = Returned e.
Proof.
  intros now d updates uid md e H. unfold auditUpdate.
  rewrite (trackAll_noop updates (fieldsOf e) [] H). reflexivity.
Qed.





(** [getFieldHistory] with the name of an [Object.prototype] member (such as
    ["toString"] or ["constructor"]) returns the whole audit log, since every
    [changes] object inherits that member. *)
Theorem getFieldHistory_prototype_member :
  forall fieldName e,
  In fieldName objectPrototypeKeys -> getFieldHistory fieldName e = auditLog e.
Proof.
  intros f e Hin. unfold getFieldHistory.
  assert (Hp : existsb (String.eqb f) objectPrototypeKeys = true)
    by (apply existsb_eqb_In; exact Hin).
  induction (auditLog e) as [|x l IH]; simpl; [reflexivity|].
  unfold hasChange at 1. rewrite Hp, orb_true_r. f_equal. exact IH.
Qed.

End AuditQueryProofs.

(* ------------------------------------------------------------------------- *)
(** ** Witnesses of the further properties *)

Lemma health_status_order_independent_witness :
  let deps := [("cache", Returned (mkDependencyHealth "cache" DEGRADED None));
               ("queue", @Thrown DependencyHealth "connection refused")] in
  let deps' := [("queue", @Thrown DependencyHealth "connection refused");
                ("cache", Returned (mkDependencyHealth "cache" DEGRADED None))] in
  Permutation deps deps' /\
  fst (health deps (Returned HEALTHY)) = fst (health deps' (Returned HEALTHY)).
Proof.
  intros deps deps'. split; [apply perm_swap|].
  apply (health_status_order_independent deps deps' (Returned HEALTHY)). apply perm_swap.
Defined.



Lemma changePassword_write_unchecked_witness :
  let st := mkStore [demo_user true true 0] true false in
  exists o st',
    changePassword demo_hash demo_compare demo_svc st 7 "u-0" "Abcdef12" "Newpass99" = (o, st') /\
    (o <> Returned (Success true) -> st' = st) /\
    (writeOk st = false -> st' = st) /\
    (forall u, isReady (base demo_svc) = true -> writeOk st = false ->
       findById st "u-0" = Success (Some u) -> demo_compare "Abcdef12" (passwordHash u) = true ->
       validatePassword "Newpass99" = Success true ->
       o = Returned (Success true) /\ findById st' "u-0" = Success (Some u)).
Proof.
  intros st. do 2 eexists. split; [reflexivity|].
  apply (changePassword_write_unchecked demo_hash demo_compare demo_svc st 7 "u-0"
           "Abcdef12" "Newpass99"). reflexivity.
Defined.


Lemma login_refresh_roundtrip_witness :
  exists resp st',
    login demo_compare demo_svc demo_store 0 (mkLoginRequest "ana@school.in" "Abcdef12")
      = (Returned (Success resp), st') /\
    (forall later, (later < 0 + refreshTokenExpiry)%Z ->
       exists resp', refreshTokenOp demo_svc st' later (refreshToken resp) = Returned (Success resp') /\
         id (user resp') = id (user resp)) /\
    (forall later, (0 + refreshTokenExpiry <= later)%Z ->
       refreshTokenOp demo_svc st' later (refreshToken resp) = Returned (Failure "Invalid refresh token")).
Proof.
  do 2 eexists. split; [reflexivity|].
  eapply (login_refresh_roundtrip demo_compare demo_svc demo_store 0
           (mkLoginRequest "ana@school.in" "Abcdef12")).
  - reflexivity.
  - apply NoDup_cons; [intros [] | apply NoDup_nil].
Defined.

Lemma login_tokens_not_interchangeable_witness :
  exists resp st',
    login demo_compare demo_svc demo_store 0 (mkLoginRequest "ana@school.in" "Abcdef12")
      = (Returned (Success resp), st') /\
    refreshTokenOp demo_svc st' 10 (accessToken resp) = Returned (Failure "Invalid refresh token") /\
    verifyToken demo_svc st' 10 (refreshToken resp) = Returned (Failure "Invalid token").
Proof.
  do 2 eexists. split; [reflexivity|].
  eapply (login_tokens_not_interchangeable demo_compare demo_svc demo_store 0
           (mkLoginRequest "ana@school.in" "Abcdef12")); [reflexivity | discriminate].
Defined.

Lemma refresh_checks_canLogin_verify_only_active_witness :
  let st := mkStore [demo_user true true 5] true true in
  let p := mkPayload "u-0" "ana@school.in" "TEACHER" None 0 900 in
  (jwt_verify (Signed p "refresh-secret") (jwtRefreshSecret demo_svc) 1 = VerifyOk p ->
   canLogin (demo_user true true 5) = false ->
   refreshTokenOp demo_svc st 1 (Signed p "refresh-secret")
     = Returned (Failure "User account is not active")) /\
  (jwt_verify (Signed p "access-secret") (jwtSecret demo_svc) 1 = VerifyOk p ->
   isActive (demo_user true true 5) = true ->
   verifyToken demo_svc st 1 (Signed p "access-secret") = Returned (Success (demo_user true true 5))).
Proof.
  intros st p. split.
  - apply (refresh_checks_canLogin_verify_only_active demo_svc st 1
             (Signed p "refresh-secret") p (demo_user true true 5)); reflexivity.
  - apply (refresh_checks_canLogin_verify_only_active demo_svc st 1
             (Signed p "access-secret") p (demo_user true true 5)); reflexivity.
Defined.

Lemma loginSeq_preserves_accounts_witness :
  let st' := snd (loginSeq demo_compare demo_svc demo_store
       (map (fun tp => (fst tp, mkLoginRequest "ana@school.in" (snd tp))) demo_attempts)) in
  map accountIdentity (users st') = map accountIdentity (users demo_store) /\
  Forall2 grows (users demo_store) (users st').
Proof.
  apply loginSeq_preserves_accounts.
  apply NoDup_cons; [intros [] | apply NoDup_nil].
Defined.

Lemma isValidEmail_shape_witness :
  exists local domain,
    "ana@school.in" = (local ++ String "@" domain)%string /\ local <> EmptyString /\
    Str.test (fun c => (c =? "@")%char) local = false /\
    Str.test (fun c => (c =? "@")%char) domain = false /\
    Str.test (fun c => (c =? ".")%char) domain = true /\
    Str.test Str.isWs "ana@school.in" = false.
Proof. apply isValidEmail_shape. reflexivity. Defined.

Lemma auditUpdate_noop_witness :
  Audit.auditUpdate 100 Audit.demo_date
    [("name", Audit.VStr "Ana"); ("nickname", Audit.VStr "A"); ("createdBy", Audit.VUndef)]
    "admin" None Audit.demo_entity = Returned Audit.demo_entity.
Proof.
  apply AuditQueryProofs.auditUpdate_noop.
  intros k v Hin old Ho. simpl in Hin.
  destruct Hin as [H|[H|[H|[]]]]; injection H as <- <-; simpl in Ho;
    try discriminate; injection Ho as <-; reflexivity.
Defined.



Lemma getFieldHistory_prototype_member_witness :
  In "toString" Audit.objectPrototypeKeys /\
  Audit.getFieldHistory "toString" Audit.demo_entity = Audit.auditLog Audit.demo_entity.
Proof.
  split; [simpl; tauto|].
  apply AuditQueryProofs.getFieldHistory_prototype_member. simpl. tauto.
Defined.
